(** * Document directives of a ledger: [beancount/ops/documents.py]

    A shallow embedding of the three functions of the module
    ([process_documents], [verify_document_entries], [find_documents])
    together with the parts of the Python library they call
    ([re.match], [int], [datetime.date], [os.path]), and the properties
    of the module that are checked against it.

    A Python [str] is kept as the bytes that [os.fsencode] gives for it:
    UTF-8, with a byte that belongs to no well-formed sequence standing
    for itself (as [os.walk] decodes names, such a byte is the lone
    surrogate U+DC00 + byte). Concatenation, comparison, [startswith]
    and the functions of [os.path] act on these bytes as they act on the
    characters; [re] and [int] read the characters, which [decode]
    gives. *)

From stdpp Require Import gmap strings list sorting.
From Stdlib Require Import ZArith Ascii String.

Open Scope string_scope.
Open Scope list_scope.
Open Scope Z_scope.

(** ** Python results: a value or a raised exception *)

Module Py.

(** The only exception the modelled code can raise is the [ValueError]
    of [int] and of [datetime.date]; its message is not modelled. *)
Inductive exn : Set := ValueError.

Inductive result (A : Type) : Type :=
| Ok (a : A)
| Raise (e : exn).
Arguments Ok {A} a.
Arguments Raise {A} e.

(** Sequencing: an exception raised by the first computation skips the
    second and propagates. *)
#[export] Instance result_ret : MRet result := @Ok.
#[export] Instance result_bind : MBind result := fun A B k r =>
  match r with
  | Ok a => k a
  | Raise e => Raise e
  end.

(** A [for] loop whose body updates an accumulator and may raise. *)
Fixpoint for_each {A S} (body : S -> A -> result S) (l : list A) (s : S)
  : result S :=
  match l with
  | [] => Ok s
  | x :: l' => s' ← body s x; for_each body l' s'
  end.

(** [str.startswith]. *)
Definition startswith (s p : string) : bool := String.prefix p s.

(** *** The characters of a [str] *)

(** A continuation byte of UTF-8 (10xxxxxx): its six bits, and what
    follows it. *)
Definition continuation (s : string) : option (N * string) :=
  match s with
  | String c s' =>
      let b := N_of_ascii c in
      if ((128 <=? b) && (b <? 192))%N then Some ((b - 128)%N, s') else None
  | EmptyString => None
  end.

(** The character that starts at the byte [c0] followed by [s0]: its
    code point and the number of bytes of [s0] that belong to it. A byte
    that starts no well-formed sequence (a stray continuation byte, an
    overlong form, an encoded surrogate, a value above U+10FFFF, a
    sequence cut short) is the character U+DC00 + byte. *)
Definition lead (c0 : ascii) (s0 : string) : N * nat :=
  let b0 := N_of_ascii c0 in
  let escaped := ((56320 + b0)%N, 0%nat) in
  if (b0 <? 128)%N then (b0, 0%nat)
  else if (b0 <? 194)%N then escaped
  else if (b0 <? 224)%N then
    match continuation s0 with
    | Some (x1, _) => (((b0 - 192) * 64 + x1)%N, 1%nat)
    | None => escaped
    end
  else if (b0 <? 240)%N then
    match continuation s0 with
    | Some (x1, s1) =>
        match continuation s1 with
        | Some (x2, _) =>
            let cp := ((b0 - 224) * 4096 + x1 * 64 + x2)%N in
            if ((cp <? 2048) || ((55296 <=? cp) && (cp <? 57344)))%N
            then escaped else (cp, 2%nat)
        | None => escaped
        end
    | None => escaped
    end
  else if (b0 <? 245)%N then
    match continuation s0 with
    | Some (x1, s1) =>
        match continuation s1 with
        | Some (x2, s2) =>
            match continuation s2 with
            | Some (x3, _) =>
                let cp :=
                  ((b0 - 240) * 262144 + x1 * 4096 + x2 * 64 + x3)%N in
                if ((cp <? 65536) || (1114111 <? cp))%N
                then escaped else (cp, 3%nat)
            | None => escaped
            end
        | None => escaped
        end
    | None => escaped
    end
  else escaped.

(** The characters of a [str], as code points. The bytes that follow a
    lead byte and belong to its character are continuation bytes, each
    of which alone would be one escaped character: dropping that many
    characters of the rest skips them. *)
Fixpoint decode (s : string) : list N :=
  match s with
  | EmptyString => []
  | String c0 s0 => let '(cp, k) := lead c0 s0 in cp :: drop k (decode s0)
  end.

(** The decimal digits of the Unicode database of the interpreter
    ([Py_UNICODE_TODECIMAL]): the value of a code point that is a decimal
    digit, in whatever script. [\d] in a [str] pattern and [int] both
    read it. The database is not part of the repository and differs
    between versions of the interpreter; what is used of it is that below
    U+0080 the decimal digits are the ten from 0 to 9. *)
Class UnicodeDB : Type := {
  decimal : N -> option Z;
  decimal_ascii :
    forall cp : N,
      (cp < 128)%N ->
      decimal cp
      = if ((48 <=? cp) && (cp <=? 57))%N then Some (Z.of_N cp - 48)
        else None
}.

(** The digits 0 to 9 as bytes, and their values. *)
Definition is_digit (c : ascii) : bool :=
  ((48 <=? N_of_ascii c) && (N_of_ascii c <=? 57))%N.

Definition digit_value (c : ascii) : Z := Z.of_N (N_of_ascii c) - 48.

Fixpoint int_acc `{UnicodeDB} (acc : Z) (s : list N) : result Z :=
  match s with
  | [] => Ok acc
  | c :: s' =>
      match decimal c with
      | Some v => int_acc (10 * acc + v) s'
      | None => Raise ValueError
      end
  end.

(** [int(s)] on the characters of a [str]: the decimal value of a
    non-empty run of decimal digits, [ValueError] otherwise (signs,
    blanks and underscores, which [int] also reads, never reach it from
    the date pattern). *)
Definition int `{UnicodeDB} (s : list N) : result Z :=
  match s with
  | [] => Raise ValueError
  | _ => int_acc 0 s
  end.

End Py.

Export Py.

(** ** [re.match] for the patterns the module uses *)

Module Re.

(** The line feed. *)
Definition newline : ascii := ascii_of_N 10.

Inductive charset : Set :=
| Digit                (* \d *)
| AnyChar              (* .  (no DOTALL flag: anything but a line feed) *)
| Lit (c : N).

Definition charset_matches `{UnicodeDB} (cs : charset) (c : N) : bool :=
  match cs with
  | Digit => bool_decide (is_Some (decimal c))
  | AnyChar => negb (c =? N_of_ascii newline)%N
  | Lit x => (c =? x)%N
  end.

Inductive regex : Set :=
| Eps
| Chr (cs : charset)
| Star (cs : charset)          (* greedy repetition of one character set *)
| Cat (r1 r2 : regex)
| Group (r : regex).           (* capturing parentheses *)

(** The text between the start of [s] and the start of its suffix [s']. *)
Definition consumed (s s' : list N) : list N :=
  take (List.length s - List.length s')%nat s.

Section Matcher.
Context `{UnicodeDB} {R : Type}.

(** Greedy star with backtracking: take as many characters as match,
    give one back each time the rest of the pattern fails. *)
Fixpoint star (cs : charset) (k : list N -> option R) (s : list N)
  : option R :=
  match s with
  | c :: s' =>
      if charset_matches cs c then
        match star cs k s' with
        | Some r => Some r
        | None => k s
        end
      else k s
  | [] => k s
  end.
End Matcher.

(** Backtracking matcher in continuation style. [gs] holds the text of
    the groups closed so far; the groups of the patterns used here are
    not nested, so closing order is numbering order. *)
Fixpoint run `{UnicodeDB} (r : regex) (s : list N) (gs : list (list N))
    (k : list N -> list (list N) -> option (list (list N)))
  : option (list (list N)) :=
  match r with
  | Eps => k s gs
  | Chr cs =>
      match s with
      | c :: s' => if charset_matches cs c then k s' gs else None
      | [] => None
      end
  | Star cs => star cs (fun s' => k s' gs) s
  | Cat r1 r2 => run r1 s gs (fun s' gs' => run r2 s' gs' k)
  | Group r1 => run r1 s gs (fun s' gs' => k s' (gs' ++ [consumed s s']))
  end.

(** [re.match(pattern, s)] on the characters of [s]: anchored at the
    start, free at the end. The match object is the list of its
    groups. *)
Definition match_ `{UnicodeDB} (r : regex) (s : list N)
  : option (list (list N)) :=
  run r s [] (fun _ gs => Some gs).

(** [mo.group(i)] for [i >= 1]. *)
Definition group (mo : list (list N)) (i : nat) : list N :=
  nth (i - 1)%nat mo [].

Definition cat (rs : list regex) : regex := fold_right Cat Eps rs.

End Re.

(** ** [datetime.date] *)

Module Datetime.

Record date : Set := mkdate { year : Z; month : Z; day : Z }.

Definition MINYEAR : Z := 1.
Definition MAXYEAR : Z := 9999.

Definition is_leap (y : Z) : bool :=
  (y mod 4 =? 0) && (negb (y mod 100 =? 0) || (y mod 400 =? 0)).

Definition days_in_month (y m : Z) : Z :=
  if m =? 2 then (if is_leap y then 29 else 28)
  else if (m =? 4) || (m =? 6) || (m =? 9) || (m =? 11) then 30
  else 31.

(** The constructor [datetime.date(year, month, day)]. *)
Definition new (y m d : Z) : result date :=
  if negb ((MINYEAR <=? y) && (y <=? MAXYEAR)) then Raise ValueError
  else if negb ((1 <=? m) && (m <=? 12)) then Raise ValueError
  else if negb ((1 <=? d) && (d <=? days_in_month y m)) then Raise ValueError
  else Ok (mkdate y m d).

End Datetime.

(** ** [os.path] on a POSIX system ([posixpath]) *)

Module PosixPath.

Definition sep : ascii := "/"%char.

(** [s.rfind(c)]: index of the last occurrence of [c], or -1. *)
Fixpoint rfind_from (c : ascii) (s : string) (i last : Z) : Z :=
  match s with
  | EmptyString => last
  | String x s' => rfind_from c s' (i + 1) (if Ascii.eqb x c then i else last)
  end.

Definition rfind (c : ascii) (s : string) : Z := rfind_from c s 0 (-1).

(** [s.rstrip(c)]. *)
Fixpoint rstrip (c : ascii) (s : string) : string :=
  match s with
  | EmptyString => EmptyString
  | String x s' =>
      match rstrip c s' with
      | EmptyString => if Ascii.eqb x c then EmptyString else String x EmptyString
      | t => String x t
      end
  end.

(** [c * n]. *)
Fixpoint replicate_char (c : ascii) (n : nat) : string :=
  match n with
  | O => EmptyString
  | S n' => String c (replicate_char c n')
  end.

(** [s.endswith(c)] for a one-character suffix. *)
Fixpoint endswith_char (s : string) (c : ascii) : bool :=
  match s with
  | EmptyString => false
  | String x EmptyString => Ascii.eqb x c
  | String _ s' => endswith_char s' c
  end.

(** [s.split(c)]. *)
Fixpoint split (c : ascii) (s : string) : list string :=
  match s with
  | EmptyString => [EmptyString]
  | String x s' =>
      if Ascii.eqb x c then EmptyString :: split c s'
      else match split c s' with
           | w :: ws => String x w :: ws
           | [] => [String x EmptyString]
           end
  end.

Definition isabs (s : string) : bool := startswith s "/".

(** [join(a, b)] with one component [b]. *)
Definition join (a b : string) : string :=
  if startswith b "/" then b
  else if String.eqb a "" || endswith_char a sep then a +:+ b
  else a +:+ "/" +:+ b.

Definition dirname (p : string) : string :=
  let i := rfind sep p + 1 in
  let head := String.substring 0 (Z.to_nat i) p in
  if negb (String.eqb head "")
     && negb (String.eqb head (replicate_char sep (String.length head)))
  then rstrip sep head
  else head.

(** One turn of the loop of [normpath] over the components. The flag
    [initial_slashes] is 0 ([False]), 1 ([True]) or 2. *)
Definition normpath_step (initial_slashes : Z) (new_comps : list string)
    (comp : string) : list string :=
  if String.eqb comp "" || String.eqb comp "." then new_comps
  else if negb (String.eqb comp "..")
          || ((initial_slashes =? 0) && bool_decide (new_comps = []))
          || (negb (bool_decide (new_comps = []))
              && String.eqb (List.last new_comps "") "..")
  then new_comps ++ [comp]
  else if negb (bool_decide (new_comps = [])) then List.removelast new_comps
  else new_comps.

Definition normpath (path : string) : string :=
  if String.eqb path "" then "."
  else
    let initial_slashes :=
      if startswith path "/" then
        if startswith path "//" && negb (startswith path "///") then 2 else 1
      else 0 in
    let comps := split sep path in
    let new_comps := fold_left (normpath_step initial_slashes) comps [] in
    let path := String.concat "/" new_comps in
    let path :=
      if initial_slashes =? 0 then path
      else replicate_char sep (Z.to_nat initial_slashes) +:+ path in
    if String.eqb path "" then "." else path.

(** [abspath(path)], with the working directory of the process. *)
Definition abspath (cwd : string) (path : string) : string :=
  let path := if negb (isabs path) then join cwd path else path in
  normpath path.

End PosixPath.

(** ** Paths as lists of components *)

(** The notions in which the resolution of the directory is stated.
    They are not functions of [posixpath]: they say what a path is made
    of, and what [.] and [..] do to the components of a path. *)
Module Components.

Import PosixPath.

(** Whether a string holds a separator. *)
Fixpoint has_sep (s : string) : bool :=
  match s with
  | EmptyString => false
  | String x s' => Ascii.eqb x sep || has_sep s'
  end.

(** A path component that [normpath] keeps in an absolute path: a name
    without a separator that is not empty, [.] or [..]. *)
Definition plain_component (c : string) : Prop :=
  c <> "" /\ c <> "." /\ c <> ".." /\ has_sep c = false.

(** The root of an absolute path. POSIX gives a path that starts with
    exactly two slashes a meaning of its own: there the root is two
    slashes, and one slash anywhere else. *)
Definition root_of (p : string) : string :=
  if startswith p "//" && negb (startswith p "///") then "//" else "/".

(** What one component does to the components kept so far when a path
    is read from the root: an empty component and [.] change nothing,
    [..] drops the last component if there is one, any other component
    is added. *)
Definition collapse_step (kept : list string) (comp : string)
  : list string :=
  if String.eqb comp "" || String.eqb comp "." then kept
  else if String.eqb comp ".." then List.removelast kept
  else kept ++ [comp].

(** The components of the place that a list of components leads to from
    the root. *)
Definition collapse (comps : list string) : list string :=
  fold_left collapse_step comps [].

(** The components of the directory that holds the file [p]: those of
    [p] without the last one, after those of the working directory when
    [p] is relative. *)
Definition containing_directory (cwd p : string) : list string :=
  (if isabs p then [] else split sep cwd) ++ List.removelast (split sep p).

(** Two measures of a string that the proofs about [dirname] and
    [normpath] go by. *)

(** The number of separators a string starts with. *)
Fixpoint leading_seps (s : string) : nat :=
  match s with
  | EmptyString => 0
  | String x s' => if Ascii.eqb x sep then S (leading_seps s') else 0
  end.

(** The index of the last separator of a string, if it has one. *)
Fixpoint last_sep (s : string) : option nat :=
  match s with
  | EmptyString => None
  | String x s' =>
      match last_sep s' with
      | Some k => Some (S k)
      | None => if Ascii.eqb x sep then Some 0%nat else None
      end
  end.

End Components.

(** ** Directives ([beancount.core.data]) *)

Module Data.

Export Datetime.

(** [Source(filename, lineno)]. *)
Record Source : Set := mkSource { source_filename : string; lineno : Z }.

(** The directives of a ledger. [Document(source, date, account,
    filename)] is the one this module builds and inspects. The other
    directive classes are only told apart from it ([isinstance]) and
    handed to the collaborators; they are kept as their class name,
    source, date and the accounts they mention. *)
Inductive directive : Set :=
| Document (source : Source) (date : date) (account : string)
    (filename : string)
| Other (class : string) (source : Source) (date : date)
    (accounts : list string).

Definition entry_source (e : directive) : Source :=
  match e with
  | Document s _ _ _ => s
  | Other _ s _ _ => s
  end.

End Data.

(** ** The module [beancount.ops.documents] *)

Module Documents.

Export Data.

(** [DocumentError = namedtuple('DocumentError', 'source message entry')];
    [entry] is [None] or a directive. *)
Record DocumentError : Set := mkDocumentError {
  source : Source;
  message : string;
  entry : option directive
}.

(** What the module reads from its environment: the working directory
    ([os.getcwd], used by [abspath]), [os.path.exists], and the directory
    walk [account.walk] of [beancount.core.account], which yields one
    tuple [(root, account_name, dirs, files)] per visited directory. *)
Record filesystem : Type := mkfs {
  getcwd : string;
  path_exists : string -> bool;
  walk : string -> list (string * string * list string * list string)
}.

(** The options the module reads: [options_map["filename"]] and
    [options_map["documents"]]. *)
Record options : Set := mkoptions {
  opt_filename : string;
  opt_documents : list string
}.

(** *** [verify_document_entries] *)

(** The one-character string holding a double quote. *)
Definition dquote : string := String (ascii_of_N 34) EmptyString.

Definition missing_file_error (e : directive) (filename : string)
  : DocumentError :=
  mkDocumentError (entry_source e)
    ("File does not exist: " +:+ dquote +:+ filename +:+ dquote) (Some e).

(** The body of the loop over the entries. *)
Definition verify_entry (fs : filesystem) (errors : list DocumentError)
    (e : directive) : list DocumentError :=
  match e with
  | Other _ _ _ _ => errors                       (* continue *)
  | Document _ _ _ filename =>
      if negb (path_exists fs filename)
      then errors ++ [missing_file_error e filename]
      else errors
  end.

Definition verify_document_entries (fs : filesystem)
    (entries : list directive) : list directive * list DocumentError :=
  let errors := fold_left (verify_entry fs) entries [] in
  (entries, errors).

(** *** [find_documents] *)

(** The pattern given to [re.match]: three groups of 4, 2 and 2 [\d]
    joined by dashes, then one [.], then a fourth group holding a
    starred [.]. *)
Definition date_pattern : Re.regex :=
  let d := Re.Chr Re.Digit in
  let dash := Re.Chr (Re.Lit (N_of_ascii "-")) in
  Re.cat [Re.Group (Re.cat [d; d; d; d]); dash;
          Re.Group (Re.cat [d; d]); dash;
          Re.Group (Re.cat [d; d]);
          Re.Chr Re.AnyChar;
          Re.Group (Re.Star Re.AnyChar)].

(** Truth value of the [accounts_only] argument: [None] and the empty
    set are false. *)
Definition truthy (accounts_only : option (gset string)) : bool :=
  match accounts_only with
  | None => false
  | Some accounts => negb (bool_decide (accounts = ∅))
  end.

(** [account_name in accounts_only], evaluated only for a true
    [accounts_only]. *)
Definition member (account_name : string)
    (accounts_only : option (gset string)) : bool :=
  match accounts_only with
  | None => false
  | Some accounts => bool_decide (account_name ∈ accounts)
  end.

(** [any(p(account) for account in accounts_only)]. *)
Definition any (p : string -> bool) (accounts_only : option (gset string))
  : bool :=
  match accounts_only with
  | None => false
  | Some accounts => bool_decide (set_Exists (fun a => p a = true) accounts)
  end.

Definition child_error (input_filename filename account_name : string)
  : DocumentError :=
  mkDocumentError (mkSource input_filename 0)
    ("Document '" +:+ filename +:+ "' found in child account "
       +:+ account_name +:+ ".") None.

Definition parent_error (input_filename filename account_name : string)
  : DocumentError :=
  mkDocumentError (mkSource input_filename 0)
    ("Document '" +:+ filename +:+ "' found in parent account "
       +:+ account_name +:+ ".") None.

Definition missing_root_error (input_filename directory : string)
  : DocumentError :=
  mkDocumentError (mkSource input_filename 0)
    ("Document root '" +:+ directory +:+ "' does not exist.") None.

(** The state of the two loops: the lists [entries] and [errors]. *)
Definition found : Set := list directive * list DocumentError.

(** The body of the loop over the files of one directory. *)
Definition scan_file `{UnicodeDB} (input_filename : string)
    (accounts_only : option (gset string)) (strict : bool)
    (root account_name : string) (st : found) (filename : string)
  : result found :=
  let '(entries, errors) := st in
  match Re.match_ date_pattern (decode filename) with
  | None => Ok (entries, errors)                  (* continue *)
  | Some mo =>
      if truthy accounts_only && negb (member account_name accounts_only)
      then
        if strict then
          if any (fun account => startswith account_name account)
               accounts_only
          then Ok (entries,
                   errors ++ [child_error input_filename filename
                                account_name])
          else if any (fun account => startswith account account_name)
                    accounts_only
          then Ok (entries,
                   errors ++ [parent_error input_filename filename
                                account_name])
          else Ok (entries, errors)
        else Ok (entries, errors)                 (* continue *)
      else
        let source := mkSource input_filename 0 in
        y ← int (Re.group mo 1);
        m ← int (Re.group mo 2);
        d ← int (Re.group mo 3);
        date ← Datetime.new y m d;
        let entry :=
          Document source date account_name (PosixPath.join root filename) in
        Ok (entries ++ [entry], errors)
  end.

(** The body of the loop over the walk. *)
Definition scan_directory `{UnicodeDB} (input_filename : string)
    (accounts_only : option (gset string)) (strict : bool) (st : found)
    (item : string * string * list string * list string) : result found :=
  let '(root, account_name, dirs, files) := item in
  for_each (scan_file input_filename accounts_only strict root account_name)
    files st.

(** Lines 101-104: the directory that is checked and walked. *)
Definition resolve_directory (fs : filesystem)
    (directory input_filename : string) : string :=
  if negb (PosixPath.isabs directory) then
    let input_directory := PosixPath.dirname input_filename in
    PosixPath.abspath (getcwd fs)
      (PosixPath.normpath (PosixPath.join input_directory directory))
  else directory.

Definition find_documents `{UnicodeDB} (fs : filesystem)
    (directory input_filename : string)
    (accounts_only : option (gset string)) (strict : bool)
  : result found :=
  let directory := resolve_directory fs directory input_filename in
  if negb (path_exists fs directory) then
    Ok ([], [missing_root_error input_filename directory])
  else
    for_each (scan_directory input_filename accounts_only strict)
      (walk fs directory) ([], []).

(** *** [process_documents] *)

Section Orchestrator.

(** The collaborators of [beancount.core]: [getters.get_accounts], the
    set of the accounts of a list of entries, and [data.entry_sortkey],
    the key the entries are sorted by. [key_lt] is [<] on the keys. *)
Context `{UnicodeDB} {K : Type}.
Variable get_accounts : list directive -> gset string.
Variable entry_sortkey : directive -> K.
Variable key_lt : K -> K -> bool.

(** [list.sort(key=...)] is stable: entries with equal keys keep their
    order. The arrangement it produces is computed by insertion. *)
Fixpoint insert_by_key (x : directive) (l : list directive)
  : list directive :=
  match l with
  | [] => [x]
  | y :: l' =>
      if key_lt (entry_sortkey y) (entry_sortkey x)
      then y :: insert_by_key x l'
      else x :: l
  end.

Definition sort_by_key (l : list directive) : list directive :=
  fold_right insert_by_key [] l.

(** The body of the loop over the configured directories. *)
Definition accumulate (filename : string) (accounts : gset string)
    (fs : filesystem) (st : found) (directory : string) : result found :=
  let '(autodoc_entries, autodoc_errors) := st in
  '(new_entries, new_errors) ←
    find_documents fs directory filename (Some accounts) false;
  Ok (autodoc_entries ++ new_entries, autodoc_errors ++ new_errors).

(** The list passed in is extended and sorted in place and returned;
    the model returns its final contents. *)
Definition process_documents (fs : filesystem) (entries : list directive)
    (options_map : options) : result found :=
  let filename := opt_filename options_map in
  let '(entries, document_errors) := verify_document_entries fs entries in
  let document_dirs := opt_documents options_map in
  '(autodoc_entries, autodoc_errors) ←
    (if negb (bool_decide (document_dirs = [])) then
       let accounts := get_accounts entries in
       for_each (accumulate filename accounts fs) document_dirs ([], [])
     else Ok ([], []));
  let entries := entries ++ autodoc_entries in
  let entries := sort_by_key entries in
  Ok (entries, document_errors ++ autodoc_errors).

(** Non-decreasing keys: no entry has a key below that of an entry
    before it. *)
Definition key_le (a b : directive) : Prop :=
  key_lt (entry_sortkey b) (entry_sortkey a) = false.

End Orchestrator.

(** *** Shapes of file names *)

(** Whether a character is a decimal digit. *)
Definition is_decimal `{UnicodeDB} (c : N) : bool :=
  bool_decide (is_Some (decimal c)).

(** What the pattern accepts: four decimal digits, a hyphen, two decimal
    digits, a hyphen, two decimal digits and one more character that is
    not a line feed. The digits are those of any script. *)
Definition dated_name `{UnicodeDB} (s : string) : Prop :=
  exists y1 y2 y3 y4 m1 m2 d1 d2 c rest,
    decode s
    = [y1; y2; y3; y4; N_of_ascii "-"; m1; m2; N_of_ascii "-"; d1; d2; c]
      ++ rest /\
    Forall (fun x => is_Some (decimal x)) [y1; y2; y3; y4; m1; m2; d1; d2] /\
    c <> N_of_ascii Re.newline.

(** The same shape, decided. *)
Definition is_dated_name `{UnicodeDB} (s : string) : bool :=
  match decode s with
  | y1 :: y2 :: y3 :: y4 :: h1 :: m1 :: m2 :: h2 :: d1 :: d2 :: c :: _ =>
      forallb is_decimal [y1; y2; y3; y4; m1; m2; d1; d2]
      && (h1 =? N_of_ascii "-")%N && (h2 =? N_of_ascii "-")%N
      && negb (c =? N_of_ascii Re.newline)%N
  | _ => false
  end.

(** The shape as the specification words it: the date, then one
    separator that is not a digit, then a remainder that is not empty. *)
Definition spec_document_name `{UnicodeDB} (s : string) : bool :=
  match decode s with
  | y1 :: y2 :: y3 :: y4 :: h1 :: m1 :: m2 :: h2 :: d1 :: d2 :: c :: rest =>
      forallb is_decimal [y1; y2; y3; y4; m1; m2; d1; d2]
      && (h1 =? N_of_ascii "-")%N && (h2 =? N_of_ascii "-")%N
      && negb (is_decimal c)
      && negb (bool_decide (rest = []))
  | _ => false
  end.

(** The scope errors as the specification words them: ancestry is a
    prefix that ends at the separator of account names. *)
Definition account_sep : string := ":".

Definition spec_scope_errors (input_filename filename account_name : string)
    (accounts : gset string) : list DocumentError :=
  if any (fun account => startswith account_name (account +:+ account_sep))
       (Some accounts)
  then [child_error input_filename filename account_name]
  else if any (fun account =>
                 startswith account (account_name +:+ account_sep))
            (Some accounts)
  then [parent_error input_filename filename account_name]
  else [].

(** *** Ancestry as the code tests it *)

(** Some filtered account is a prefix of the derived account name. *)
Definition under_filtered (account_name : string) (accounts : gset string)
  : Prop :=
  exists a, a ∈ accounts /\ startswith account_name a = true.

(** The derived account name is a prefix of some filtered account. *)
Definition above_filtered (account_name : string) (accounts : gset string)
  : Prop :=
  exists a, a ∈ accounts /\ startswith a account_name = true.

End Documents.

(** ** Sample inputs *)

Module Samples.

Import Documents.

(** A table of decimal digits for the samples: the digits of ASCII and
    the Arabic-Indic, Extended Arabic-Indic, Devanagari and fullwidth
    digits, each a run of ten code points from the zero listed. *)
Definition zeros : list N := [48; 1632; 1776; 2406; 65296]%N.

Fixpoint block_value (zs : list N) (cp : N) : option Z :=
  match zs with
  | [] => None
  | z :: zs' =>
      if ((z <=? cp) && (cp <? z + 10))%N then Some (Z.of_N cp - Z.of_N z)
      else block_value zs' cp
  end.

Definition sample_decimal (cp : N) : option Z := block_value zeros cp.

Lemma sample_decimal_ascii (cp : N) :
  (cp < 128)%N ->
  sample_decimal cp
  = if ((48 <=? cp) && (cp <=? 57))%N then Some (Z.of_N cp - 48) else None.
Proof.
  intros Hcp. unfold sample_decimal, zeros. cbn [block_value].
  repeat match goal with
         | |- context [N.leb ?x ?y] => destruct (N.leb_spec x y)
         | |- context [N.ltb ?x ?y] => destruct (N.ltb_spec x y)
         end; simpl; try reflexivity; try lia.
Qed.

#[global] Instance digits : UnicodeDB :=
  {| decimal := sample_decimal; decimal_ascii := sample_decimal_ascii |}.

(** A sample of [get_accounts]: the accounts the entries mention. *)
Definition get_accounts (entries : list directive) : gset string :=
  list_to_set
    (flat_map (fun e => match e with
                        | Document _ _ a _ => [a]
                        | Other _ _ _ accounts => accounts
                        end) entries).

(** A sample of [entry_sortkey]: the date, then the line number. *)
Definition entry_sortkey (e : directive) : Z * Z :=
  let d := match e with
           | Document _ d _ _ => d
           | Other _ _ d _ => d
           end in
  ((year d * 100 + month d) * 100 + day d, lineno (entry_source e)).

Definition key_lt (a b : Z * Z) : bool :=
  (a.1 <? b.1) || ((a.1 =? b.1) && (a.2 <? b.2)).

Definition ledger : string := "/home/u/ledger.beancount".

(** One documents directory with one account directory in it. *)
Definition tree (files : list string)
  : string -> list (string * string * list string * list string) :=
  fun directory =>
    if String.eqb directory "/home/u/docs" then
      [("/home/u/docs", "", ["Assets"], []);
       ("/home/u/docs/Assets", "Assets", ["Cash"], []);
       ("/home/u/docs/Assets/Cash", "Assets:Cash", [], files)]
    else [].

Definition fs_with (files : list string) : filesystem :=
  mkfs "/home/u"
    (fun p => String.eqb p "/home/u/docs"
              || String.eqb p "/home/u/docs/Assets/Cash/2014-03-01.bill.pdf")
    (tree files).

(** A receipt dated 31 February next to a well-dated bill. *)
Definition fs_feb31 : filesystem :=
  fs_with ["2014-02-31.receipt.pdf"; "2014-03-01.bill.pdf"].

Definition fs_good : filesystem :=
  fs_with ["2014-03-01.bill.pdf"; "notes.txt"].

(** Account directories above, at, below and beside a checking account. *)
Definition fs_bank : filesystem :=
  mkfs "/home/u"
    (fun p => String.eqb p "/home/u/docs")
    (fun directory =>
       if String.eqb directory "/home/u/docs" then
         [("/home/u/docs/Assets", "Assets", ["Bank"],
           ["2014-01-01.summary.pdf"]);
          ("/home/u/docs/Assets/Bank/Checking", "Assets:Bank:Checking",
           ["Sub"], ["2014-01-02.statement.pdf"; "README"]);
          ("/home/u/docs/Assets/Bank/Checking/Sub",
           "Assets:Bank:Checking:Sub", [], ["2014-01-03.slip.pdf"]);
          ("/home/u/docs/Expenses", "Expenses", [], ["2014-01-04.bill.pdf"])]
       else []).

(** An account directory beside a bank account whose name starts like
    it. *)
Definition fs_banking : filesystem :=
  mkfs "/home/u"
    (fun p => String.eqb p "/home/u/docs")
    (fun directory =>
       if String.eqb directory "/home/u/docs" then
         [("/home/u/docs/Assets/Banking", "Assets:Banking", [],
           ["2014-01-01.statement.pdf"])]
       else []).

(** A process that runs away from the ledger. *)
Definition fs_elsewhere : filesystem :=
  mkfs "/srv/run" (fun p => String.eqb p "/home/u/docs/2014") (fun _ => []).

Definition open_cash : directive :=
  Other "Open" (mkSource ledger 2) (mkdate 2014 1 1) ["Assets:Cash"].

Definition lost_document : directive :=
  Document (mkSource ledger 7) (mkdate 2014 5 1) "Assets:Cash"
    "/home/u/lost.pdf".

End Samples.

(** ** Notions used to state the properties of the finder *)

Module Derived.

Import Documents.

(** The date written at the start of a file name: the characters 0-3,
    5-6 and 8-9 read as year, month and day. *)
Definition name_date `{UnicodeDB} (filename : string) : result date :=
  match decode filename with
  | y1 :: y2 :: y3 :: y4 :: _ :: m1 :: m2 :: _ :: d1 :: d2 :: _ =>
      y ← int [y1; y2; y3; y4];
      m ← int [m1; m2];
      d ← int [d1; d2];
      Datetime.new y m d
  | _ => Raise ValueError
  end.

(** The directory of [account_name] is not skipped by the filter: the
    filter is absent or empty, or the account is in it. *)
Definition passes_filter (account_name : string)
    (accounts_only : option (gset string)) : bool :=
  negb (truthy accounts_only && negb (member account_name accounts_only)).

(** A date of the calendar. *)
Definition valid_date (d : date) : Prop :=
  1 <= year d <= 9999 /\ 1 <= month d <= 12 /\
  1 <= day d <= days_in_month (year d) (month d).

(** The number of files a walk lists. *)
Definition walked_files
    (items : list (string * string * list string * list string)) : nat :=
  sum_list (map (fun item => List.length item.2) items).

(** The file of a document directive exists; other directives have none. *)
Definition file_present (fs : filesystem) (e : directive) : Prop :=
  match e with
  | Document _ _ _ filename => path_exists fs filename = true
  | Other _ _ _ _ => True
  end.

(** The configured roots that are missing, each as the error the finder
    returns for it. *)
Definition missing_roots (fs : filesystem) (filename : string)
    (directories : list string) : list DocumentError :=
  flat_map
    (fun directory =>
       let resolved := resolve_directory fs directory filename in
       if path_exists fs resolved then []
       else [missing_root_error filename resolved])
    directories.

(** Where a directive of the finder comes from. *)
Definition found_in `{UnicodeDB} (fs : filesystem) (directory input : string)
    (accounts_only : option (gset string)) (e : directive) : Prop :=
  exists root account_name dirs files filename date,
    e = Document (mkSource input 0) date account_name
          (PosixPath.join root filename) /\
    (root, account_name, dirs, files)
      ∈ walk fs (resolve_directory fs directory input) /\
    filename ∈ files /\
    dated_name filename /\
    passes_filter account_name accounts_only = true /\
    name_date filename = Ok date /\
    valid_date date.

(** The directive, if any, that one file of a walked directory gives when
    the walk does not raise. *)
Definition file_directives `{UnicodeDB} (input : string)
    (accounts_only : option (gset string)) (root account_name : string)
    (filename : string) : list directive :=
  if is_dated_name filename && passes_filter account_name accounts_only then
    match name_date filename with
    | Ok date =>
        [Document (mkSource input 0) date account_name
           (PosixPath.join root filename)]
    | Raise _ => []
    end
  else [].

(** The directives of a walk, directory by directory and file by file. *)
Definition walk_directives `{UnicodeDB} (input : string)
    (accounts_only : option (gset string))
    (items : list (string * string * list string * list string))
  : list directive :=
  flat_map
    (fun item : string * string * list string * list string =>
       flat_map (file_directives input accounts_only item.1.1.1 item.1.1.2)
         item.2)
    items.

(** Where a scope error of the finder comes from: a dated file that the
    walk lists in a directory the filter skips. *)
Definition scope_error_of `{UnicodeDB} (fs : filesystem)
    (directory input : string)
    (accounts_only : option (gset string)) (err : DocumentError) : Prop :=
  exists root account_name dirs files filename,
    (root, account_name, dirs, files)
      ∈ walk fs (resolve_directory fs directory input) /\
    filename ∈ files /\
    dated_name filename /\
    passes_filter account_name accounts_only = false /\
    (err = child_error input filename account_name \/
     err = parent_error input filename account_name).

End Derived.

(** * Properties *)

Import Documents.
Import Derived.

(** ** Loops and results *)

Section ForEach.
Context {A S : Type}.
Implicit Types (body : S -> A -> result S) (l : list A) (s : S).

Lemma for_each_app body l1 l2 s :
  for_each body (l1 ++ l2) s = s' ← for_each body l1 s; for_each body l2 s'.
Proof.
  revert s. induction l1 as [|x l1 IH]; intros s; simpl; [done|].
  destruct (body s x) as [s'|e]; simpl; [apply IH | done].
Qed.

(** Two bodies that agree on every state and item run the same loop. *)
Lemma for_each_ext body1 body2 l s :
  (forall s x, body1 s x = body2 s x) ->
  for_each body1 l s = for_each body2 l s.
Proof.
  intros Hb. revert s. induction l as [|x l IH]; intros s; simpl; [done|].
  rewrite Hb. destruct (body2 s x); simpl; [apply IH | done].
Qed.

(** A property of the state kept by every turn is kept by the loop. *)
Lemma for_each_invariant (P : S -> Prop) body l s s' :
  (forall s x s', P s -> body s x = Ok s' -> P s') ->
  P s -> for_each body l s = Ok s' -> P s'.
Proof.
  intros Hb. revert s. induction l as [|x l IH]; intros s Hs; simpl.
  - by intros [= <-].
  - destruct (body s x) as [s1|e] eqn:E; simpl; [|done].
    apply IH. by eapply Hb.
Qed.
End ForEach.

(** ** The characters of a name *)

(** A byte below 128 is its own character. *)
Lemma decode_ascii c s :
  (N_of_ascii c < 128)%N -> decode (String c s) = N_of_ascii c :: decode s.
Proof.
  intros Hc. cbn [decode]. unfold lead.
  destruct (N.ltb_spec (N_of_ascii c) 128); [done | lia].
Qed.

Lemma is_digit_range c :
  is_digit c = true -> (48 <= N_of_ascii c <= 57)%N.
Proof.
  unfold is_digit. intros [?%N.leb_le ?%N.leb_le]%andb_true_iff. lia.
Qed.

Lemma decode_digit c s :
  is_digit c = true -> decode (String c s) = N_of_ascii c :: decode s.
Proof. intros Hc%is_digit_range. apply decode_ascii. lia. Qed.

Lemma continuation_range s x s' :
  continuation s = Some (x, s') -> (x < 64)%N.
Proof.
  destruct s as [|c s0]; simpl; [done|].
  destruct (N.leb_spec 128 (N_of_ascii c)), (N.ltb_spec (N_of_ascii c) 192);
    simpl; intros [= <- <-]; lia.
Qed.

(** The character a byte of 128 or more starts is not below 128. *)
Lemma lead_high c s :
  (128 <= N_of_ascii c)%N -> (128 <= (lead c s).1)%N.
Proof.
  intros Hc. unfold lead.
  repeat match goal with
         | |- context [N.ltb ?x ?y] => destruct (N.ltb_spec x y)
         | |- context [N.leb ?x ?y] => destruct (N.leb_spec x y)
         | |- context [continuation ?t] =>
             let E := fresh "E" in
             destruct (continuation t) as [[? ?]|] eqn:E;
             [apply continuation_range in E|]
         end; simpl; lia.
Qed.

(** The first character of a name is a line feed exactly when its first
    byte is. *)
Lemma decode_first c s :
  exists cp rest,
    decode (String c s) = cp :: rest /\
    (cp = N_of_ascii Re.newline <-> c = Re.newline).
Proof.
  cbn [decode]. destruct (lead c s) as [cp k] eqn:E.
  exists cp, (drop k (decode s)). split; [done|].
  assert (Hcp : cp = (lead c s).1) by (by rewrite E).
  destruct (N.ltb_spec (N_of_ascii c) 128) as [Hlow|Hhigh].
  - unfold lead in Hcp.
    destruct (N.ltb_spec (N_of_ascii c) 128); [|lia]. simpl in Hcp. subst cp.
    split.
    + intros Heq. rewrite <- (ascii_N_embedding c), Heq.
      apply ascii_N_embedding.
    + by intros ->.
  - pose proof (lead_high c s Hhigh) as Hge. rewrite <- Hcp in Hge.
    split.
    + intros ->. vm_compute in Hge. done.
    + intros ->. vm_compute in Hhigh. done.
Qed.

(** ** The date pattern *)

(** One character of the subject against one character set of the
    pattern: the match cannot succeed on an empty subject or on a
    character outside the set. *)
Ltac step_char H :=
  match type of H with
  | is_Some (match ?s with [] => _ | _ :: _ => _ end) =>
      destruct s; [by destruct H|]
  end;
  match type of H with
  | is_Some (if ?b then _ else _) =>
      let E := fresh "E" in destruct b eqn:E; [|by destruct H]
  end.

Section DatePattern.
Context {db : UnicodeDB}.

Lemma star_is_Some {R} cs (k : list N -> option R) s :
  (forall s', is_Some (k s')) -> is_Some (Re.star cs k s).
Proof.
  intros Hk. induction s as [|c s IH]; simpl; [apply Hk|].
  destruct (Re.charset_matches cs c); [|apply Hk].
  destruct (Re.star cs k s); [eauto | apply Hk].
Qed.

Lemma lit_matches c x : Re.charset_matches (Re.Lit x) c = true <-> c = x.
Proof. simpl. apply N.eqb_eq. Qed.

Lemma anychar_matches c :
  Re.charset_matches Re.AnyChar c = true <-> c <> N_of_ascii Re.newline.
Proof. simpl. rewrite negb_true_iff. apply N.eqb_neq. Qed.

Lemma digit_matches c :
  Re.charset_matches Re.Digit c = true <-> is_Some (decimal c).
Proof. simpl. apply bool_decide_eq_true. Qed.

(** The characters the pattern accepts. *)
Lemma match_date_pattern_chars l :
  is_Some (Re.match_ date_pattern l) <->
  exists y1 y2 y3 y4 m1 m2 d1 d2 c rest,
    l = [y1; y2; y3; y4; N_of_ascii "-"; m1; m2; N_of_ascii "-"; d1; d2; c]
        ++ rest /\
    Forall (fun x => is_Some (decimal x)) [y1; y2; y3; y4; m1; m2; d1; d2] /\
    c <> N_of_ascii Re.newline.
Proof.
  unfold Re.match_, date_pattern. cbn [Re.cat fold_right Re.run]. split.
  - intros Hm. do 11 step_char Hm.
    apply lit_matches in E3, E6. subst.
    apply anychar_matches in E9.
    repeat match goal with
           | E : Re.charset_matches Re.Digit _ = true |- _ =>
               apply digit_matches in E
           end.
    do 10 eexists. split; [reflexivity|]. split; [|done].
    repeat constructor; assumption.
  - intros (y1 & y2 & y3 & y4 & m1 & m2 & d1 & d2 & c & rest & -> & Hd & Hc).
    repeat match goal with
           | Hd : Forall _ (_ :: _) |- _ =>
               apply Forall_cons in Hd as [?%digit_matches Hd]
           end.
    apply anychar_matches in Hc. cbn [app].
    repeat match goal with
           | E : Re.charset_matches _ _ = true |- _ => rewrite E; clear E
           end.
    rewrite !(proj2 (lit_matches _ _) eq_refl).
    apply star_is_Some. eauto.
Qed.

Lemma match_date_pattern s :
  is_Some (Re.match_ date_pattern (decode s)) <-> dated_name s.
Proof. apply match_date_pattern_chars. Qed.

Lemma match_date_pattern_None s :
  Re.match_ date_pattern (decode s) = None <-> ~ dated_name s.
Proof.
  rewrite <- match_date_pattern, <- eq_None_not_Some. done.
Qed.

(** The value of an ASCII digit. *)
Lemma decimal_digit c :
  is_digit c = true -> decimal (N_of_ascii c) = Some (digit_value c).
Proof.
  intros Hc%is_digit_range. rewrite decimal_ascii by lia. unfold digit_value.
  destruct (N.leb_spec 48 (N_of_ascii c)), (N.leb_spec (N_of_ascii c) 57);
    simpl; [done | lia | lia | lia].
Qed.

(** A name of ASCII digits in the shape of a date. *)
Lemma decode_dated_bytes y1 y2 y3 y4 m1 m2 d1 d2 s :
  Forall (fun x => is_digit x = true) [y1; y2; y3; y4; m1; m2; d1; d2] ->
  decode
    (String y1 (String y2 (String y3 (String y4 (String "-"
       (String m1 (String m2 (String "-" (String d1 (String d2 s))))))))))
  = [N_of_ascii y1; N_of_ascii y2; N_of_ascii y3; N_of_ascii y4;
     N_of_ascii "-"; N_of_ascii m1; N_of_ascii m2; N_of_ascii "-";
     N_of_ascii d1; N_of_ascii d2] ++ decode s.
Proof.
  intros Hd.
  repeat match goal with
         | Hd : Forall _ (_ :: _) |- _ => apply Forall_cons in Hd as [? Hd]
         end.
  rewrite (decode_digit y1), (decode_digit y2), (decode_digit y3),
    (decode_digit y4) by done.
  rewrite (decode_ascii "-") by (vm_compute; reflexivity).
  rewrite (decode_digit m1), (decode_digit m2) by done.
  rewrite (decode_ascii "-") by (vm_compute; reflexivity).
  by rewrite (decode_digit d1), (decode_digit d2) by done.
Qed.

Lemma dated_name_bytes y1 y2 y3 y4 m1 m2 d1 d2 c rest :
  Forall (fun x => is_digit x = true) [y1; y2; y3; y4; m1; m2; d1; d2] ->
  c <> Re.newline ->
  dated_name
    (String y1 (String y2 (String y3 (String y4 (String "-"
       (String m1 (String m2 (String "-"
          (String d1 (String d2 (String c rest))))))))))).
Proof.
  intros Hd Hc.
  destruct (decode_first c rest) as (cp & tl & Htl & Hcp).
  exists (N_of_ascii y1), (N_of_ascii y2), (N_of_ascii y3), (N_of_ascii y4),
    (N_of_ascii m1), (N_of_ascii m2), (N_of_ascii d1), (N_of_ascii d2), cp, tl.
  split; [|split].
  - rewrite decode_dated_bytes by done. by rewrite Htl.
  - repeat match goal with
           | Hd : Forall _ (_ :: _) |- _ =>
               apply Forall_cons in Hd as [?%decimal_digit Hd]
           end.
    repeat constructor; eauto.
  - intros Heq. by apply Hc, Hcp.
Qed.

(** A file that passes the pattern and is not filtered out either ends the
    walk with [ValueError] or adds one directive. *)
Lemma scan_file_unfiltered input root account_name entries errors filename mo :
  Re.match_ date_pattern (decode filename) = Some mo ->
  scan_file input None false root account_name (entries, errors) filename
    = Raise ValueError \/
  exists date,
    scan_file input None false root account_name (entries, errors) filename
    = Ok (entries ++ [Document (mkSource input 0) date account_name
                        (PosixPath.join root filename)], errors).
Proof.
  intros Hmo. unfold scan_file. rewrite Hmo. cbn [truthy andb].
  destruct (int (Re.group mo 1)) as [y|[]]; simpl; [|by left].
  destruct (int (Re.group mo 2)) as [m|[]]; simpl; [|by left].
  destruct (int (Re.group mo 3)) as [d|[]]; simpl; [|by left].
  destruct (Datetime.new y m d) as [date|[]]; simpl; [|by left].
  right. by exists date.
Qed.

(** C1, as amended: a file name is taken for a document exactly when it
    starts with four decimal digits, a hyphen, two decimal digits, a
    hyphen and two decimal digits followed by one more character that is
    not a line feed; the digits are those of any script, the character
    after the date may be a digit and nothing need follow it. A name of
    any other shape leaves the directives and the errors as they were,
    whatever the filter and the strict flag; a name of this shape,
    without a filter, never does. *)
Theorem dated_name_recognized input root account_name st filename :
  (Re.match_ date_pattern (decode filename) <> None <-> dated_name filename)
  /\
  (~ dated_name filename ->
   forall accounts_only strict,
     scan_file input accounts_only strict root account_name st filename
     = Ok st) /\
  (dated_name filename ->
   scan_file input None false root account_name st filename <> Ok st).
Proof.
  split; [|split].
  - rewrite <- match_date_pattern, not_eq_None_Some. done.
  - intros Hn%match_date_pattern_None accounts_only strict.
    unfold scan_file. destruct st as [entries errors]. by rewrite Hn.
  - intros [mo Hmo]%match_date_pattern. destruct st as [entries errors].
    destruct (scan_file_unfiltered input root account_name entries errors
                filename mo Hmo) as [-> | [date ->]]; [done|].
    intros [= Heq]. apply (f_equal (@List.length directive)) in Heq.
    rewrite length_app in Heq. simpl in Heq. lia.
Qed.

End DatePattern.

(** A name without a date is passed over under any filter; a dated name
    is not, be its digits those of ASCII or those of another script. *)
Lemma dated_name_recognized_witness :
  (~ dated_name "notes.txt" /\
   scan_file Samples.ledger (Some {[ "Assets:Cash" ]}) true
     "/home/u/docs/Assets/Cash" "Assets:Cash" ([], []) "notes.txt"
   = Ok ([], [])) /\
  (dated_name "2014-03-01.bill.pdf" /\
   scan_file Samples.ledger None false "/home/u/docs/Assets/Cash"
     "Assets:Cash" ([], []) "2014-03-01.bill.pdf" <> Ok ([], [])) /\
  (dated_name "٢٠١٤-٠٢-٢٨.x" /\
   scan_file Samples.ledger None false "/home/u/docs/Assets/Cash"
     "Assets:Cash" ([], []) "٢٠١٤-٠٢-٢٨.x" <> Ok ([], [])).
Proof.
  assert (Hn : ~ dated_name "notes.txt").
  { apply match_date_pattern_None. reflexivity. }
  assert (Hd : dated_name "2014-03-01.bill.pdf").
  { apply match_date_pattern. vm_compute. eauto. }
  assert (Ha : dated_name "٢٠١٤-٠٢-٢٨.x").
  { apply match_date_pattern. vm_compute. eauto. }
  split; [|split]; (split; [assumption|]).
  - apply (dated_name_recognized Samples.ledger "/home/u/docs/Assets/Cash"
             "Assets:Cash" ([], []) "notes.txt"). exact Hn.
  - apply (dated_name_recognized Samples.ledger "/home/u/docs/Assets/Cash"
             "Assets:Cash" ([], []) "2014-03-01.bill.pdf"). exact Hd.
  - apply (dated_name_recognized Samples.ledger "/home/u/docs/Assets/Cash"
             "Assets:Cash" ([], []) "٢٠١٤-٠٢-٢٨.x"). exact Ha.
Defined.

(** C1, as stated, fails: a name whose date is followed by a single
    character and nothing else, and a name whose date is followed by a
    digit, are outside the stated shape and each yields a directive. *)
Lemma spec_document_name_counterexample :
  spec_document_name "2014-02-28x" = false /\
  scan_file Samples.ledger None false "/home/u/docs/Assets/Cash"
    "Assets:Cash" ([], []) "2014-02-28x"
  = Ok ([Document (mkSource Samples.ledger 0) (mkdate 2014 2 28)
           "Assets:Cash" "/home/u/docs/Assets/Cash/2014-02-28x"], []) /\
  spec_document_name "2014-02-281.pdf" = false /\
  scan_file Samples.ledger None false "/home/u/docs/Assets/Cash"
    "Assets:Cash" ([], []) "2014-02-281.pdf"
  = Ok ([Document (mkSource Samples.ledger 0) (mkdate 2014 2 28)
           "Assets:Cash" "/home/u/docs/Assets/Cash/2014-02-281.pdf"], []).
Proof. repeat split; vm_compute; reflexivity. Qed.

(** A name dated in Arabic-Indic digits is a document like any other: the
    pattern and [int] read the digits of every script. *)
Example arabic_indic_name :
  scan_file Samples.ledger None false "/home/u/docs/Assets/Cash"
    "Assets:Cash" ([], []) "٢٠١٤-٠٢-٢٨.x"
  = Ok ([Document (mkSource Samples.ledger 0) (mkdate 2014 2 28)
           "Assets:Cash" "/home/u/docs/Assets/Cash/٢٠١٤-٠٢-٢٨.x"], []) /\
  scan_file Samples.ledger None false "/home/u/docs/Assets/Cash"
    "Assets:Cash" ([], []) "٢٠١٤-٠٢-٣١.x"
  = Raise ValueError.
Proof. split; vm_compute; reflexivity. Qed.

(** ** The groups of the date pattern *)

Section Groups.
Context {db : UnicodeDB}.

Lemma consumed_app (p s : list N) : Re.consumed (p ++ s) s = p.
Proof.
  unfold Re.consumed. rewrite length_app.
  replace (List.length p + List.length s - List.length s)%nat
    with (List.length p) by lia.
  induction p as [|c p IH]; simpl; [by destruct s | by rewrite IH].
Qed.

(** A star whose continuation always succeeds succeeds, with the result of
    the continuation on some suffix. *)
Lemma star_Some {R} cs (f : list N -> R) s :
  exists s', Re.star cs (fun s' => Some (f s')) s = Some (f s').
Proof.
  induction s as [|c s [s' IH]]; simpl; [by eexists|].
  destruct (Re.charset_matches cs c); [|by eexists].
  rewrite IH. by eexists.
Qed.

Lemma match_date_pattern_groups y1 y2 y3 y4 m1 m2 d1 d2 c rest :
  Forall (fun x => is_Some (decimal x)) [y1; y2; y3; y4; m1; m2; d1; d2] ->
  c <> N_of_ascii Re.newline ->
  exists g4,
    Re.match_ date_pattern
      ([y1; y2; y3; y4; N_of_ascii "-"; m1; m2; N_of_ascii "-"; d1; d2; c]
       ++ rest)
    = Some [[y1; y2; y3; y4]; [m1; m2]; [d1; d2]; g4].
Proof.
  intros Hd Hc%anychar_matches.
  repeat match goal with
         | Hd : Forall _ (_ :: _) |- _ =>
             apply Forall_cons in Hd as [?%digit_matches Hd]
         end.
  unfold Re.match_, date_pattern. cbn [Re.cat fold_right Re.run app].
  repeat match goal with
         | E : Re.charset_matches _ _ = true |- _ => rewrite E; clear E
         end.
  rewrite !(proj2 (lit_matches _ _) eq_refl).
  match goal with
  | |- context [Re.consumed ?s (N_of_ascii "-" :: m1 :: ?t)] =>
      change s with ([y1; y2; y3; y4] ++ N_of_ascii "-" :: m1 :: t)
  end.
  match goal with
  | |- context [Re.consumed (m1 :: ?s) (N_of_ascii "-" :: d1 :: ?t)] =>
      change (m1 :: s) with ([m1; m2] ++ N_of_ascii "-" :: d1 :: t)
  end.
  match goal with
  | |- context [Re.consumed (d1 :: ?s) (c :: rest)] =>
      change (d1 :: s) with ([d1; d2] ++ c :: rest)
  end.
  rewrite !consumed_app. cbn [app].
  destruct (star_Some Re.AnyChar
              (fun s' => [[y1; y2; y3; y4]; [m1; m2]; [d1; d2];
                          Re.consumed rest s']) rest) as [s' Hs'].
  rewrite Hs'. by eexists.
Qed.

(** The finder reads the date off the first ten characters of the name. *)
Lemma match_date_pattern_name_date filename mo :
  Re.match_ date_pattern (decode filename) = Some mo ->
  (y ← int (Re.group mo 1); m ← int (Re.group mo 2);
   d ← int (Re.group mo 3); Datetime.new y m d)
  = name_date filename.
Proof.
  intros Hmo.
  assert (Hd : dated_name filename) by (apply match_date_pattern; eauto).
  destruct Hd as (y1 & y2 & y3 & y4 & m1 & m2 & d1 & d2 & c & rest
                  & Hdec & Hd & Hc).
  destruct (match_date_pattern_groups _ _ _ _ _ _ _ _ _ rest Hd Hc)
    as [g4 Hg]. unfold name_date. rewrite Hdec in Hmo |- *.
  rewrite Hg in Hmo. injection Hmo as <-. reflexivity.
Qed.

(** The shape of a dated name, decided. *)
Lemma is_dated_name_true s : is_dated_name s = true <-> dated_name s.
Proof.
  unfold is_dated_name, dated_name. split.
  - destruct (decode s)
      as [|y1 [|y2 [|y3 [|y4 [|h1 [|m1 [|m2 [|h2 [|d1 [|d2 [|c rest]]]]]]]]]]];
      try done.
    cbn [forallb]. rewrite !andb_true_iff, negb_true_iff.
    unfold is_decimal. rewrite !bool_decide_eq_true.
    intros ((((Hy1 & Hy2 & Hy3 & Hy4 & Hm1 & Hm2 & Hd1 & Hd2 & _)
              & ->%N.eqb_eq) & ->%N.eqb_eq) & Hc%N.eqb_neq).
    exists y1, y2, y3, y4, m1, m2, d1, d2, c, rest.
    split; [done|]. split; [|done]. by repeat constructor.
  - intros (y1 & y2 & y3 & y4 & m1 & m2 & d1 & d2 & c & rest & -> & Hd & Hc).
    repeat match goal with
           | Hd : Forall _ (_ :: _) |- _ => apply Forall_cons in Hd as [? Hd]
           end.
    cbn [app forallb]. unfold is_decimal.
    rewrite !bool_decide_eq_true_2 by done. rewrite !N.eqb_refl.
    apply N.eqb_neq in Hc. by rewrite Hc.
Qed.

End Groups.

(** ** One file *)

(** The loops over the items that raise no matter what was accumulated. *)
Section ForEachFacts.
Context {A S : Type}.
Implicit Types (body : S -> A -> result S) (l : list A) (s : S).

(** An invariant need only be kept for the items of the list. *)
Lemma for_each_invariant_in (P : S -> Prop) body l s s' :
  (forall s x s', x ∈ l -> P s -> body s x = Ok s' -> P s') ->
  P s -> for_each body l s = Ok s' -> P s'.
Proof.
  revert s. induction l as [|x l IH]; intros s Hb Hs; simpl.
  - by intros [= <-].
  - destruct (body s x) as [s1|e] eqn:E; simpl; [|done].
    apply IH.
    + intros s2 y s3 Hy. apply Hb. by right.
    + eapply Hb; [by left | exact Hs | exact E].
Qed.

(** When the items on which the body raises are the same in every state,
    the loop raises exactly when the list holds one of them. *)
Lemma for_each_raises body (R : A -> Prop) l s :
  (forall s x, body s x = Raise ValueError <-> R x) ->
  for_each body l s = Raise ValueError <-> Exists R l.
Proof.
  intros Hb. revert s. induction l as [|x l IH]; intros s; simpl.
  - rewrite Exists_nil. done.
  - rewrite Exists_cons. destruct (body s x) as [s1|[]] eqn:E; simpl.
    + rewrite IH. split; [by right|]. intros [Hx%(Hb s)|H]; [|done].
      by rewrite E in Hx.
    + split; [|done]. intros _. left. by apply (Hb s).
Qed.
End ForEachFacts.

Section OneFile.
Context {db : UnicodeDB}.

Lemma passes_filter_guard account_name accounts_only :
  truthy accounts_only && negb (member account_name accounts_only)
  = negb (passes_filter account_name accounts_only).
Proof. unfold passes_filter. by rewrite negb_involutive. Qed.

(** A file in a directory the filter lets through. *)
Lemma scan_file_kept input accounts_only strict root account_name entries
    errors filename :
  dated_name filename ->
  passes_filter account_name accounts_only = true ->
  scan_file input accounts_only strict root account_name (entries, errors)
    filename
  = date ← name_date filename;
    Ok (entries ++ [Document (mkSource input 0) date account_name
                      (PosixPath.join root filename)], errors).
Proof.
  intros [mo Hmo]%match_date_pattern Hp. unfold scan_file.
  rewrite Hmo, passes_filter_guard, Hp. cbn [negb].
  rewrite <- (match_date_pattern_name_date filename mo Hmo).
  destruct (int (Re.group mo 1)); simpl; [|done].
  destruct (int (Re.group mo 2)); simpl; [|done].
  destruct (int (Re.group mo 3)); simpl; [|done].
  by destruct (Datetime.new _ _ _).
Qed.

(** A file in a directory the filter skips: no directive, and no error
    unless the strict flag is set. *)
Lemma scan_file_skipped input accounts_only strict root account_name entries
    errors filename :
  passes_filter account_name accounts_only = false ->
  exists new_errors,
    scan_file input accounts_only strict root account_name (entries, errors)
      filename = Ok (entries, errors ++ new_errors) /\
    (List.length new_errors <= 1)%nat /\
    (strict = false -> new_errors = []).
Proof.
  intros Hp. unfold scan_file.
  destruct (Re.match_ date_pattern (decode filename)) as [mo|].
  2: { exists []. rewrite app_nil_r. repeat split; simpl; try done; lia. }
  rewrite passes_filter_guard, Hp. cbn [negb].
  destruct strict.
  2: { exists []. rewrite app_nil_r. repeat split; simpl; try done; lia. }
  destruct (any _ accounts_only).
  { eexists [_]. repeat split; simpl; try done; lia. }
  destruct (any _ accounts_only).
  { eexists [_]. repeat split; simpl; try done; lia. }
  exists []. rewrite app_nil_r. repeat split; simpl; try done; lia.
Qed.

Lemma scan_file_undated input accounts_only strict root account_name st
    filename :
  ~ dated_name filename ->
  scan_file input accounts_only strict root account_name st filename = Ok st.
Proof.
  intros H%match_date_pattern_None. unfold scan_file.
  destruct st as [entries errors]. by rewrite H.
Qed.

(** The three cases together: what one file adds. *)
Lemma scan_file_cases input accounts_only strict root account_name entries
    errors filename :
  (scan_file input accounts_only strict root account_name (entries, errors)
     filename = Raise ValueError /\
   dated_name filename /\
   passes_filter account_name accounts_only = true /\
   name_date filename = Raise ValueError) \/
  (exists date,
     scan_file input accounts_only strict root account_name (entries, errors)
       filename
     = Ok (entries ++ [Document (mkSource input 0) date account_name
                         (PosixPath.join root filename)], errors) /\
     dated_name filename /\
     passes_filter account_name accounts_only = true /\
     name_date filename = Ok date) \/
  (exists new_errors,
     scan_file input accounts_only strict root account_name (entries, errors)
       filename = Ok (entries, errors ++ new_errors) /\
     (List.length new_errors <= 1)%nat /\
     (strict = false -> new_errors = []) /\
     (~ dated_name filename \/
      passes_filter account_name accounts_only = false)).
Proof.
  destruct (Re.match_ date_pattern (decode filename)) as [mo|] eqn:Hmo.
  - assert (Hd : dated_name filename) by (apply match_date_pattern; eauto).
    destruct (passes_filter account_name accounts_only) eqn:Hp.
    + rewrite (scan_file_kept _ _ _ _ _ _ _ _ Hd Hp).
      destruct (name_date filename) as [date|[]]; simpl.
      * right. left. by exists date.
      * by left.
    + right. right.
      destruct (scan_file_skipped input accounts_only strict root
                  account_name entries errors filename Hp)
        as (new_errors & -> & Hl & Hs).
      exists new_errors. repeat split; try done. by right.
  - right. right. exists []. rewrite app_nil_r.
    apply match_date_pattern_None in Hmo.
    rewrite (scan_file_undated _ _ _ _ _ _ _ Hmo).
    repeat split; simpl; try done; try lia. by left.
Qed.

Lemma name_date_digits y1 y2 y3 y4 m1 m2 d1 d2 rest :
  Forall (fun x => is_digit x = true) [y1; y2; y3; y4; m1; m2; d1; d2] ->
  name_date
    (String y1 (String y2 (String y3 (String y4 (String "-"
       (String m1 (String m2 (String "-"
          (String d1 (String d2 rest))))))))))
  = Datetime.new
      (1000 * digit_value y1 + 100 * digit_value y2 + 10 * digit_value y3
       + digit_value y4)
      (10 * digit_value m1 + digit_value m2)
      (10 * digit_value d1 + digit_value d2).
Proof.
  intros Hd. unfold name_date. rewrite decode_dated_bytes by done.
  repeat match goal with
         | Hd : Forall _ (_ :: _) |- _ =>
             apply Forall_cons in Hd as [?%decimal_digit Hd]
         end.
  cbn [app]. unfold int. cbn [int_acc].
  repeat match goal with
         | E : decimal _ = Some _ |- _ => rewrite E; clear E
         end.
  cbn [mbind result_bind]. f_equal; lia.
Qed.

(** X1: a file whose name starts with a date, in a directory the filter
    lets through, adds one directive: its source is line 0 of the ledger,
    its date is the one the digits of the name spell, its account is the
    one of the directory and its path is the directory joined with the
    name. When the digits spell no date of the calendar the file raises
    [ValueError] instead. The lists built so far are kept. *)
Theorem dated_file_directive input accounts_only strict root account_name
    entries errors y1 y2 y3 y4 m1 m2 d1 d2 c rest :
  Forall (fun x => is_digit x = true) [y1; y2; y3; y4; m1; m2; d1; d2] ->
  c <> Re.newline ->
  passes_filter account_name accounts_only = true ->
  scan_file input accounts_only strict root account_name (entries, errors)
    (String y1 (String y2 (String y3 (String y4 (String "-"
       (String m1 (String m2 (String "-"
          (String d1 (String d2 (String c rest)))))))))))
  = date ← Datetime.new
             (1000 * digit_value y1 + 100 * digit_value y2
              + 10 * digit_value y3 + digit_value y4)
             (10 * digit_value m1 + digit_value m2)
             (10 * digit_value d1 + digit_value d2);
    Ok (entries
          ++ [Document (mkSource input 0) date account_name
                (PosixPath.join root
                   (String y1 (String y2 (String y3 (String y4 (String "-"
                      (String m1 (String m2 (String "-"
                         (String d1 (String d2 (String c rest))))))))))))],
        errors).
Proof.
  intros Hd Hc Hp. rewrite scan_file_kept; [|by apply dated_name_bytes|done].
  by rewrite (name_date_digits _ _ _ _ _ _ _ _ _ Hd).
Qed.

End OneFile.

(** A bill of 1 March 2014 in the directory of a filtered account. *)
Lemma dated_file_directive_witness :
  scan_file Samples.ledger (Some {[ "Assets:Cash" ]}) true
    "/home/u/docs/Assets/Cash" "Assets:Cash" ([Samples.open_cash], [])
    "2014-03-01.bill.pdf"
  = Ok ([Samples.open_cash;
         Document (mkSource Samples.ledger 0) (mkdate 2014 3 1) "Assets:Cash"
           "/home/u/docs/Assets/Cash/2014-03-01.bill.pdf"], []).
Proof.
  apply (dated_file_directive Samples.ledger (Some {[ "Assets:Cash" ]}) true
           "/home/u/docs/Assets/Cash" "Assets:Cash" [Samples.open_cash] []
           "2" "0" "1" "4" "0" "3" "0" "1" "." "bill.pdf").
  - repeat constructor.
  - discriminate.
  - vm_compute. reflexivity.
Defined.

(** ** Strict mode *)

Lemma any_true p accounts :
  any p (Some accounts) = true <-> exists a, a ∈ accounts /\ p a = true.
Proof. unfold any. rewrite bool_decide_eq_true. reflexivity. Qed.

Section Strict.
Context {db : UnicodeDB}.

(** The strict branch of the loop body, case by case. *)
Lemma scan_file_strict input accounts root account_name entries errors
    filename :
  accounts <> ∅ ->
  account_name ∉ accounts ->
  dated_name filename ->
  (under_filtered account_name accounts ->
   scan_file input (Some accounts) true root account_name (entries, errors)
     filename
   = Ok (entries,
         errors ++ [mkDocumentError (mkSource input 0)
                      ("Document '" +:+ filename
                         +:+ "' found in child account "
                         +:+ account_name +:+ ".") None])) /\
  (~ under_filtered account_name accounts ->
   above_filtered account_name accounts ->
   scan_file input (Some accounts) true root account_name (entries, errors)
     filename
   = Ok (entries,
         errors ++ [mkDocumentError (mkSource input 0)
                      ("Document '" +:+ filename
                         +:+ "' found in parent account "
                         +:+ account_name +:+ ".") None])) /\
  (~ under_filtered account_name accounts ->
   ~ above_filtered account_name accounts ->
   scan_file input (Some accounts) true root account_name (entries, errors)
     filename
   = Ok (entries, errors)).
Proof.
  intros Hne Hnotin [mo Hmo]%match_date_pattern.
  assert (Hguard : truthy (Some accounts)
                   && negb (member account_name (Some accounts)) = true).
  { unfold truthy, member.
    rewrite (bool_decide_eq_false_2 _ Hne), (bool_decide_eq_false_2 _ Hnotin).
    reflexivity. }
  unfold scan_file. rewrite Hmo, Hguard.
  set (c := any (fun account => startswith account_name account)
              (Some accounts)).
  set (p := any (fun account => startswith account account_name)
              (Some accounts)).
  assert (Hc : c = true <-> under_filtered account_name accounts)
    by apply any_true.
  assert (Hp : p = true <-> above_filtered account_name accounts)
    by apply any_true.
  destruct c, p; repeat split; intros; try reflexivity; exfalso;
    intuition congruence.
Qed.


(** C2 fails on the code: with the filter [Assets:Bank], a dated file in
    the directory of [Assets:Banking], which is neither below nor above
    [Assets:Bank] in the hierarchy, should be passed over in silence;
    the finder reports it as found in a child account, because its test
    is a prefix test that does not look for the separator. *)
Theorem sibling_reported_as_child :
  spec_scope_errors Samples.ledger "2014-01-01.statement.pdf"
    "Assets:Banking" {[ "Assets:Bank" ]} = [] /\
  find_documents Samples.fs_banking "docs" Samples.ledger
    (Some {[ "Assets:Bank" ]}) true
  = Ok ([], [mkDocumentError (mkSource Samples.ledger 0)
               "Document '2014-01-01.statement.pdf' found in child account Assets:Banking."
               None]).
Proof.
  split; [vm_compute; reflexivity|].
  unfold find_documents.
  change (resolve_directory Samples.fs_banking "docs" Samples.ledger)
    with "/home/u/docs".
  change (path_exists Samples.fs_banking "/home/u/docs") with true.
  change (walk Samples.fs_banking "/home/u/docs")
    with [("/home/u/docs/Assets/Banking", "Assets:Banking",
           [] : list string, ["2014-01-01.statement.pdf"])].
  cbn [negb for_each scan_directory].
  assert (Hne : ({[ "Assets:Bank" ]} : gset string) <> ∅)
    by apply non_empty_singleton_L.
  assert (Hout : "Assets:Banking" ∉ ({[ "Assets:Bank" ]} : gset string))
    by (by intros [=]%elem_of_singleton).
  assert (Hd : dated_name "2014-01-01.statement.pdf").
  { apply (dated_name_bytes "2" "0" "1" "4" "0" "1" "0" "1" "."
             "statement.pdf"); [repeat constructor | discriminate]. }
  destruct (scan_file_strict Samples.ledger {[ "Assets:Bank" ]}
              "/home/u/docs/Assets/Banking" "Assets:Banking" [] []
              "2014-01-01.statement.pdf" Hne Hout Hd) as [Hchild _].
  rewrite Hchild; [reflexivity|].
  exists "Assets:Bank". split; [by apply elem_of_singleton | reflexivity].
Qed.

End Strict.


(** The walk of a sample tree in strict mode: the file above the filtered
    account and the file below it are reported, the file beside it is
    passed over, the file in it becomes a directive. *)
Example strict_scope_sample :
  find_documents Samples.fs_bank "docs" Samples.ledger
    (Some {[ "Assets:Bank:Checking" ]}) true
  = Ok ([Document (mkSource Samples.ledger 0) (mkdate 2014 1 2)
           "Assets:Bank:Checking"
           "/home/u/docs/Assets/Bank/Checking/2014-01-02.statement.pdf"],
        [parent_error Samples.ledger "2014-01-01.summary.pdf" "Assets";
         child_error Samples.ledger "2014-01-03.slip.pdf"
           "Assets:Bank:Checking:Sub"]).
Proof. vm_compute. reflexivity. Qed.

(** ** The walk *)

Section Walk.
Context {db : UnicodeDB}.

(** The file is one that ends the walk: dated, not filtered out, and
    dated with a day that is not in the calendar. *)
Lemma scan_file_raises input accounts_only strict root account_name st
    filename :
  scan_file input accounts_only strict root account_name st filename
  = Raise ValueError <->
  dated_name filename /\
  passes_filter account_name accounts_only = true /\
  name_date filename = Raise ValueError.
Proof.
  destruct st as [entries errors]. split.
  - intros H.
    destruct (scan_file_cases input accounts_only strict root account_name
                entries errors filename)
      as [(_ & ? & ? & ?) | [(date & E & _) | (new_errors & E & _)]];
      [done | by rewrite E in H | by rewrite E in H].
  - intros (Hd & Hp & Hn). rewrite scan_file_kept by done. by rewrite Hn.
Qed.

Lemma scan_directory_raises input accounts_only strict st root account_name
    dirs files :
  scan_directory input accounts_only strict st (root, account_name, dirs, files)
  = Raise ValueError <->
  exists filename,
    filename ∈ files /\ dated_name filename /\
    passes_filter account_name accounts_only = true /\
    name_date filename = Raise ValueError.
Proof.
  unfold scan_directory.
  rewrite (for_each_raises _
             (fun filename =>
                dated_name filename /\
                passes_filter account_name accounts_only = true /\
                name_date filename = Raise ValueError)).
  - apply Exists_exists.
  - intros st' filename. apply scan_file_raises.
Qed.

(** When the finder raises. *)
Lemma find_documents_raises_iff fs directory input accounts_only strict :
  find_documents fs directory input accounts_only strict = Raise ValueError
  <->
  path_exists fs (resolve_directory fs directory input) = true /\
  exists root account_name dirs files filename,
    (root, account_name, dirs, files)
      ∈ walk fs (resolve_directory fs directory input) /\
    filename ∈ files /\
    dated_name filename /\
    passes_filter account_name accounts_only = true /\
    name_date filename = Raise ValueError.
Proof.
  unfold find_documents.
  destruct (path_exists fs (resolve_directory fs directory input)); simpl.
  2: { split; [done | by intros [? _]]. }
  rewrite (for_each_raises _
             (fun item : string * string * list string * list string =>
                exists filename,
                  filename ∈ item.2 /\ dated_name filename /\
                  passes_filter item.1.1.2 accounts_only = true /\
                  name_date filename = Raise ValueError)).
  - rewrite Exists_exists. split.
    + intros ([[[root account_name] dirs] files] & Hin & filename & H).
      split; [done|]. by exists root, account_name, dirs, files, filename.
    + intros (_ & root & account_name & dirs & files & filename & Hin & H).
      exists (root, account_name, dirs, files). split; [done|].
      by exists filename.
  - intros st [[[root account_name] dirs] files].
    apply scan_directory_raises.
Qed.

(** X2: the finder raises [ValueError] exactly when its root exists and
    the walk lists, in a directory that the filter lets through, a file
    whose name starts with a date that is not in the calendar. The strict
    flag plays no part in it. *)
Theorem find_documents_raises fs directory input accounts_only strict :
  find_documents fs directory input accounts_only strict = Raise ValueError
  <->
  path_exists fs (resolve_directory fs directory input) = true /\
  exists root account_name dirs files filename,
    (root, account_name, dirs, files)
      ∈ walk fs (resolve_directory fs directory input) /\
    filename ∈ files /\
    dated_name filename /\
    passes_filter account_name accounts_only = true /\
    name_date filename = Raise ValueError.
Proof. apply find_documents_raises_iff. Qed.

Lemma new_valid_date y m d date :
  Datetime.new y m d = Ok date -> valid_date date.
Proof.
  unfold Datetime.new, valid_date, MINYEAR, MAXYEAR.
  destruct ((1 <=? y) && (y <=? 9999)) eqn:Ey; simpl; [|done].
  destruct ((1 <=? m) && (m <=? 12)) eqn:Em; simpl; [|done].
  destruct ((1 <=? d) && (d <=? days_in_month y m)) eqn:Ed; simpl; [|done].
  intros [= <-]. simpl.
  apply andb_true_iff in Ey as [?%Z.leb_le ?%Z.leb_le].
  apply andb_true_iff in Em as [?%Z.leb_le ?%Z.leb_le].
  apply andb_true_iff in Ed as [?%Z.leb_le ?%Z.leb_le].
  lia.
Qed.

Lemma name_date_valid filename date :
  name_date filename = Ok date -> valid_date date.
Proof.
  unfold name_date.
  destruct (decode filename)
    as [|y1 [|y2 [|y3 [|y4 [|h1 [|m1 [|m2 [|h2 [|d1 [|d2 tl]]]]]]]]]];
    try done.
  destruct (int [y1; y2; y3; y4]) as [y|]; cbn [mbind result_bind]; [|done].
  destruct (int [m1; m2]) as [m|]; cbn [mbind result_bind]; [|done].
  destruct (int [d1; d2]) as [d|]; cbn [mbind result_bind]; [|done].
  apply new_valid_date.
Qed.

Lemma find_documents_found_in fs directory input accounts_only strict entries
    errs :
  find_documents fs directory input accounts_only strict = Ok (entries, errs)
  ->
  Forall (found_in fs directory input accounts_only) entries.
Proof.
  unfold find_documents.
  destruct (negb (path_exists fs (resolve_directory fs directory input))).
  { intros [= <- <-]. constructor. }
  intros H.
  apply (for_each_invariant_in
           (fun st : found =>
              Forall (found_in fs directory input accounts_only) st.1))
    in H; [done| |by constructor].
  intros st [[[root account_name] dirs] files] st' Hitem Hst Hdir.
  unfold scan_directory in Hdir.
  apply (for_each_invariant_in
           (fun st : found =>
              Forall (found_in fs directory input accounts_only) st.1))
    in Hdir; [done| |done].
  intros [ents1 errs1] filename st2 Hfile Hst1 Hscan. simpl in Hst1.
  destruct (scan_file_cases input accounts_only strict root account_name
              ents1 errs1 filename)
    as [(E & _) | [(date & E & Hd & Hp & Hn) | (new_errors & E & _)]];
    rewrite E in Hscan; [done| |]; injection Hscan as <-; simpl; [|done].
  apply Forall_app. split; [done|]. constructor; [|constructor].
  exists root, account_name, dirs, files, filename, date.
  pose proof (name_date_valid filename date Hn) as Hv.
  unfold found_in. do 6 (split; [done|]). exact Hv.
Qed.

(** X3: every directive the finder returns is a document directive made
    from a file that the walk of the resolved root lists: its source is
    line 0 of the ledger, its account is the one of the directory, its
    path is the directory joined with the file name, the name starts with
    a date, that date is in the calendar and is the date of the
    directive, and the directory is not one the filter skips. *)
Theorem find_documents_sound fs directory input accounts_only strict entries
    errs :
  find_documents fs directory input accounts_only strict = Ok (entries, errs)
  ->
  Forall (found_in fs directory input accounts_only) entries.
Proof. apply find_documents_found_in. Qed.

End Walk.

(** The bill of the sample tree, found with the filter of its account. *)
Lemma find_documents_sound_witness :
  Forall (found_in Samples.fs_good "docs" Samples.ledger
            (Some {[ "Assets:Cash" ]}))
    [Document (mkSource Samples.ledger 0) (mkdate 2014 3 1) "Assets:Cash"
       "/home/u/docs/Assets/Cash/2014-03-01.bill.pdf"].
Proof.
  apply (find_documents_sound Samples.fs_good "docs" Samples.ledger
           (Some {[ "Assets:Cash" ]}) false _ []).
  vm_compute. reflexivity.
Defined.

Section Walk.
Context {db : UnicodeDB}.

(** What a loop has produced for one item stays produced. *)
Lemma for_each_produces {A S} (body : S -> A -> result S)
    (Q : A -> S -> Prop) l s s' :
  (forall s x s' y, body s x = Ok s' -> Q y s -> Q y s') ->
  (forall s x s', x ∈ l -> body s x = Ok s' -> Q x s') ->
  for_each body l s = Ok s' ->
  forall x, x ∈ l -> Q x s'.
Proof.
  intros Hmono. revert s. induction l as [|x l IH]; intros s Hprod Hloop y Hy.
  { by apply elem_of_nil in Hy. }
  simpl in Hloop. destruct (body s x) as [s1|e] eqn:E; simpl in Hloop; [|done].
  assert (Htail : forall z, Q z s1 -> Q z s').
  { intros z Hz.
    apply (for_each_invariant (Q z) body l s1 s'); [|done|done].
    intros s2 x2 s3 Hq Hb. by eapply Hmono. }
  apply elem_of_cons in Hy as [->|Hy].
  - apply Htail. eapply Hprod; [by left | exact E].
  - eapply IH; [|exact Hloop|exact Hy].
    intros s2 x2 s3 Hx2. apply Hprod. by right.
Qed.

Lemma scan_file_keeps input accounts_only strict root account_name st
    filename st' e :
  scan_file input accounts_only strict root account_name st filename = Ok st'
  -> e ∈ st.1 -> e ∈ st'.1.
Proof.
  destruct st as [entries errors]. intros Hscan He. simpl in He.
  destruct (scan_file_cases input accounts_only strict root account_name
              entries errors filename)
    as [(E & _) | [(date & E & _) | (new_errors & E & _)]];
    rewrite E in Hscan; [done| |]; injection Hscan as <-; simpl; [|done].
  apply elem_of_app. by left.
Qed.

Lemma scan_directory_keeps input accounts_only strict st item st' e :
  scan_directory input accounts_only strict st item = Ok st' ->
  e ∈ st.1 -> e ∈ st'.1.
Proof.
  destruct item as [[[root account_name] dirs] files]. unfold scan_directory.
  intros Hloop He.
  apply (for_each_invariant (fun st : found => e ∈ st.1)) in Hloop; [done| |done].
  intros s x s' Hs Hscan. by eapply scan_file_keeps.
Qed.

(** X4: when the finder returns and its root exists, every file that the
    walk lists in a directory the filter lets through, and whose name
    starts with a date, has its directive in the result, with the date of
    the name, the account of the directory and the joined path. *)
Theorem find_documents_complete fs directory input accounts_only strict
    entries errs root account_name dirs files filename :
  find_documents fs directory input accounts_only strict = Ok (entries, errs)
  ->
  path_exists fs (resolve_directory fs directory input) = true ->
  (root, account_name, dirs, files)
    ∈ walk fs (resolve_directory fs directory input) ->
  filename ∈ files ->
  dated_name filename ->
  passes_filter account_name accounts_only = true ->
  exists date,
    name_date filename = Ok date /\
    Document (mkSource input 0) date account_name
      (PosixPath.join root filename) ∈ entries.
Proof.
  unfold find_documents. intros Hfind Hroot Hitem Hfile Hd Hp.
  rewrite Hroot in Hfind. simpl in Hfind.
  pose (Qfile := fun (root account_name filename : string) (st : found) =>
          dated_name filename ->
          passes_filter account_name accounts_only = true ->
          exists date,
            name_date filename = Ok date /\
            Document (mkSource input 0) date account_name
              (PosixPath.join root filename) ∈ st.1).
  pose (Qitem := fun (item : string * string * list string * list string)
                     (st : found) =>
          forall filename,
            filename ∈ item.2 -> Qfile item.1.1.1 item.1.1.2 filename st).
  assert (H : Qitem (root, account_name, dirs, files) (entries, errs)).
  2: { by apply (H filename). }
  apply (for_each_produces _ Qitem _ _ _) with (x := (root, account_name, dirs, files)) in Hfind; [done| | |done].
  - intros s x s' y Hscan Hq f Hf Hdf Hpf.
    destruct (Hq f Hf Hdf Hpf) as (date & Hn & Hin).
    exists date. split; [done|]. by eapply scan_directory_keeps.
  - intros s [[[r a] ds] fsl] s' _ Hscan f Hf. simpl in Hf.
    unfold scan_directory in Hscan.
    apply (for_each_produces _ (Qfile r a) _ _ _) with (x := f) in Hscan;
      [done| | |done].
    + intros s1 x s2 y Hs Hq Hdy Hpy.
      destruct (Hq Hdy Hpy) as (date & Hn & Hin).
      exists date. split; [done|]. by eapply scan_file_keeps.
    + intros [ents1 errs1] x s2 _ Hs Hdx Hpx.
      rewrite scan_file_kept in Hs by done.
      destruct (name_date x) as [date|]; simpl in Hs; [|done].
      injection Hs as <-. exists date. split; [done|]. simpl.
      apply elem_of_app. right. by apply list_elem_of_singleton.
Qed.

End Walk.

(** The bill of the sample tree is in the result of the sample walk. *)
Lemma find_documents_complete_witness :
  exists date,
    name_date "2014-03-01.bill.pdf" = Ok date /\
    Document (mkSource Samples.ledger 0) date "Assets:Cash"
      (PosixPath.join "/home/u/docs/Assets/Cash" "2014-03-01.bill.pdf")
    ∈ [Document (mkSource Samples.ledger 0) (mkdate 2014 3 1) "Assets:Cash"
         "/home/u/docs/Assets/Cash/2014-03-01.bill.pdf"].
Proof.
  apply (find_documents_complete Samples.fs_good "docs" Samples.ledger
           (Some {[ "Assets:Cash" ]}) false _ [] "/home/u/docs/Assets/Cash"
           "Assets:Cash" [] ["2014-03-01.bill.pdf"; "notes.txt"]).
  - vm_compute. reflexivity.
  - reflexivity.
  - vm_compute. do 2 right. left.
  - left.
  - apply match_date_pattern. vm_compute. eauto.
  - vm_compute. reflexivity.
Defined.

(** ** The entry verifier *)

(** The error, if any, that one entry adds. *)
Lemma verify_entry_app fs errors e :
  verify_entry fs errors e = errors ++ verify_entry fs [] e.
Proof.
  destruct e as [src d a f|]; simpl; [|by rewrite app_nil_r].
  destruct (path_exists fs f); simpl; [by rewrite app_nil_r | done].
Qed.

Lemma verify_loop fs entries errors :
  fold_left (verify_entry fs) entries errors
  = errors ++ flat_map (verify_entry fs []) entries.
Proof.
  revert errors. induction entries as [|e entries IH]; intros errors; simpl.
  - by rewrite app_nil_r.
  - rewrite IH, (verify_entry_app fs errors e), <- app_assoc. done.
Qed.

(** C4: the verifier hands back the list it was given, and its errors are,
    entry by entry and in order, one error for each document directive
    whose file does not exist, with the stated message and that directive
    attached, and none for any other entry. *)
Theorem verify_document_entries_correct fs entries :
  (verify_document_entries fs entries).1 = entries /\
  (verify_document_entries fs entries).2
  = flat_map
      (fun e =>
         match e with
         | Document src _ _ filename =>
             if path_exists fs filename then []
             else [mkDocumentError src
                     ("File does not exist: " +:+ dquote +:+ filename
                        +:+ dquote)
                     (Some e)]
         | Other _ _ _ _ => []
         end) entries.
Proof.
  split; [reflexivity|]. unfold verify_document_entries. simpl.
  rewrite verify_loop. simpl. apply flat_map_ext. intros [src d a f|]; [|done].
  simpl. by destruct (path_exists fs f).
Qed.

(** ** More on the verifier *)

Lemma verify_entry_present fs e :
  verify_entry fs [] e = [] <-> file_present fs e.
Proof.
  destruct e as [src d a f|]; simpl; [|done].
  destruct (path_exists fs f); simpl; [done|]. split; done.
Qed.

(** X9: the verifier reports nothing exactly when the file of every
    document directive of its input exists; in particular it reports
    nothing on a ledger without document directives and on the empty
    ledger. *)
Theorem verify_document_entries_clean fs entries :
  (verify_document_entries fs entries).2 = [] <->
  Forall (file_present fs) entries.
Proof.
  unfold verify_document_entries. simpl. rewrite verify_loop. simpl.
  induction entries as [|e entries IH]; simpl.
  - split; [constructor | done].
  - rewrite Forall_cons, <- IH, <- verify_entry_present.
    split.
    + by intros [? ?]%app_eq_nil.
    + intros [-> ->]. done.
Qed.

(** X10: verifying two lists one after the other is verifying their
    concatenation: the errors of the whole are the errors of the first
    part followed by those of the second. *)
Theorem verify_document_entries_app fs entries1 entries2 :
  (verify_document_entries fs (entries1 ++ entries2)).2
  = (verify_document_entries fs entries1).2
    ++ (verify_document_entries fs entries2).2.
Proof.
  unfold verify_document_entries. simpl. rewrite !verify_loop. simpl.
  apply flat_map_app.
Qed.

(** ** The document root *)

Section Root.
Context {db : UnicodeDB}.

Lemma resolve_directory_getcwd fs fs' directory input :
  getcwd fs' = getcwd fs ->
  resolve_directory fs' directory input = resolve_directory fs directory input.
Proof. intros H. unfold resolve_directory. by rewrite H. Qed.

(** C5: when the resolved root does not exist, the finder returns no
    directive and the single error "Document root '<resolved directory>'
    does not exist." with source (ledger file, 0) and no directive
    attached; what a walk would yield plays no part in the result. *)
Theorem missing_root fs directory input accounts_only strict :
  path_exists fs (resolve_directory fs directory input) = false ->
  find_documents fs directory input accounts_only strict
  = Ok ([], [mkDocumentError (mkSource input 0)
               ("Document root '" +:+ resolve_directory fs directory input
                  +:+ "' does not exist.") None]) /\
  forall any_walk,
    find_documents (mkfs (getcwd fs) (path_exists fs) any_walk) directory
      input accounts_only strict
    = find_documents fs directory input accounts_only strict.
Proof.
  intros H. split.
  - unfold find_documents. by rewrite H.
  - intros any_walk. unfold find_documents.
    rewrite (resolve_directory_getcwd fs
               (mkfs (getcwd fs) (path_exists fs) any_walk) directory input
               eq_refl).
    simpl. by rewrite H.
Qed.

End Root.

(** A root that is not on the sample file system. *)
Lemma missing_root_witness :
  find_documents Samples.fs_good "archive" Samples.ledger None true
  = Ok ([], [mkDocumentError (mkSource Samples.ledger 0)
               "Document root '/home/u/archive' does not exist." None]).
Proof.
  apply (missing_root Samples.fs_good "archive" Samples.ledger None true).
  reflexivity.
Defined.

(** ** The strict flag without a filter *)

Section NoFilter.
Context {db : UnicodeDB}.

Lemma scan_file_no_filter input accounts_only root account_name st filename :
  truthy accounts_only = false ->
  scan_file input accounts_only true root account_name st filename
  = scan_file input accounts_only false root account_name st filename.
Proof.
  intros H. unfold scan_file. destruct st as [entries errors].
  by rewrite H.
Qed.

(** C9: with the filter absent or empty, the finder returns the same
    result (the same pair, or the same exception) with the strict flag
    set as with the flag clear. *)
Theorem strict_without_filter fs directory input accounts_only :
  accounts_only = None \/ accounts_only = Some ∅ ->
  find_documents fs directory input accounts_only true
  = find_documents fs directory input accounts_only false.
Proof.
  intros H.
  assert (Ht : truthy accounts_only = false) by (by destruct H as [-> | ->]).
  unfold find_documents.
  destruct (negb (path_exists fs (resolve_directory fs directory input)));
    [done|].
  apply for_each_ext. intros st [[[root account_name] dirs] files].
  unfold scan_directory. apply for_each_ext. intros st' filename.
  by apply scan_file_no_filter.
Qed.

End NoFilter.

(** The empty filter on the sample file system. *)
Lemma strict_without_filter_witness :
  find_documents Samples.fs_good "docs" Samples.ledger (Some ∅) true
  = find_documents Samples.fs_good "docs" Samples.ledger (Some ∅) false.
Proof.
  apply (strict_without_filter Samples.fs_good "docs" Samples.ledger (Some ∅)).
  right. reflexivity.
Defined.

(** ** What the errors carry *)

Section Carry.
Context {db : UnicodeDB}.

Lemma scan_file_errors (P : DocumentError -> Prop) input accounts_only strict
    root account_name st filename st' :
  P (child_error input filename account_name) ->
  P (parent_error input filename account_name) ->
  Forall P st.2 ->
  scan_file input accounts_only strict root account_name st filename = Ok st' ->
  Forall P st'.2.
Proof.
  intros Hc Hp Hst. unfold scan_file. destruct st as [entries errors].
  simpl in Hst.
  destruct (Re.match_ date_pattern (decode filename)) as [mo|]; [|by intros [= <-]].
  destruct (truthy accounts_only && negb (member account_name accounts_only)).
  - destruct strict; [|by intros [= <-]].
    destruct (any _ accounts_only).
    { intros [= <-]. simpl. apply Forall_app. split; [done|]. by constructor. }
    destruct (any _ accounts_only); intros [= <-]; simpl; [|done].
    apply Forall_app. split; [done|]. by constructor.
  - destruct (int (Re.group mo 1)); simpl; [|done].
    destruct (int (Re.group mo 2)); simpl; [|done].
    destruct (int (Re.group mo 3)); simpl; [|done].
    destruct (Datetime.new _ _ _); simpl; [|done].
    by intros [= <-].
Qed.

Lemma find_documents_errors_None fs directory input accounts_only strict
    entries errs :
  find_documents fs directory input accounts_only strict = Ok (entries, errs) ->
  Forall (fun err => entry err = None) errs.
Proof.
  unfold find_documents.
  destruct (negb (path_exists fs (resolve_directory fs directory input))).
  { intros [= <- <-]. by constructor. }
  intros H.
  apply (for_each_invariant (fun st : found => Forall (fun err => entry err = None) st.2)) in H; [done| |by constructor].
  intros st [[[root account_name] dirs] files] st' Hst Hdir.
  unfold scan_directory in Hdir.
  apply (for_each_invariant (fun st : found => Forall (fun err => entry err = None) st.2)) in Hdir; [done| |done].
  intros st1 filename st2 Hst1 Hfile.
  by apply (scan_file_errors _ _ _ _ _ _ _ _ _ eq_refl eq_refl Hst1 Hfile).
Qed.


End Carry.


(** ** The orchestrator *)

Section Orchestrator.
Context {db : UnicodeDB}.

Section OrchestratorFacts.
Context {K : Type}.
Variable get_accounts : list directive -> gset string.
Variable entry_sortkey : directive -> K.
Variable key_lt : K -> K -> bool.

Local Abbreviation sort := (sort_by_key entry_sortkey key_lt).
Local Abbreviation insert := (insert_by_key entry_sortkey key_lt).
Local Abbreviation le := (key_le entry_sortkey key_lt).

Lemma insert_by_key_Permutation x l : insert x l ≡ₚ x :: l.
Proof.
  induction l as [|y l IH]; simpl; [done|].
  destruct (key_lt _ _); [|done]. rewrite IH. apply Permutation_swap.
Qed.

Lemma sort_by_key_Permutation l : sort l ≡ₚ l.
Proof.
  induction l as [|x l IH]; simpl; [done|].
  by rewrite insert_by_key_Permutation, IH.
Qed.

Lemma sort_by_key_length l : List.length (sort l) = List.length l.
Proof. apply Permutation_length, sort_by_key_Permutation. Qed.

(** [<] on the keys is a strict weak order, as it is on the tuples of
    dates and numbers that [entry_sortkey] returns. *)
Hypothesis key_lt_asym : forall a b, key_lt a b = true -> key_lt b a = false.
Hypothesis key_lt_negtrans :
  forall a b c, key_lt a b = false -> key_lt b c = false -> key_lt a c = false.

Lemma insert_by_key_sorted x l :
  StronglySorted le l -> StronglySorted le (insert x l).
Proof.
  induction 1 as [|y l Hl IH Hy]; simpl; [repeat constructor|].
  destruct (key_lt (entry_sortkey y) (entry_sortkey x)) eqn:E.
  - constructor; [done|].
    rewrite insert_by_key_Permutation. constructor; [|done].
    unfold key_le. by apply key_lt_asym.
  - constructor; [by constructor|]. constructor; [done|].
    eapply Forall_impl; [exact Hy|]. intros z Hz. unfold key_le in *.
    by eapply key_lt_negtrans.
Qed.

Lemma sort_by_key_sorted l : StronglySorted le (sort l).
Proof.
  induction l as [|x l IH]; simpl; [constructor|].
  by apply insert_by_key_sorted.
Qed.

End OrchestratorFacts.

Section OrchestratorRuns.
Context {K : Type}.
Variable get_accounts : list directive -> gset string.
Variable entry_sortkey : directive -> K.
Variable key_lt : K -> K -> bool.

Lemma accumulate_loop filename accounts fs dirs rs (st : found) :
  Forall2 (fun d r =>
             find_documents fs d filename (Some accounts) false = Ok r)
    dirs rs ->
  for_each (accumulate filename accounts fs) dirs st
  = Ok (st.1 ++ List.concat (map fst rs), st.2 ++ List.concat (map snd rs)).
Proof.
  intros H. revert st.
  induction H as [|d r dirs rs Hd _ IH]; intros [ents errs]; simpl.
  - by rewrite !app_nil_r.
  - rewrite Hd. destruct r as [new_entries new_errors]. simpl.
    rewrite IH. simpl. by rewrite <- !app_assoc.
Qed.

(** When every call of the finder returns, so does the orchestrator. *)
Lemma process_documents_returns fs entries opts rs :
  Forall2 (fun d r =>
             find_documents fs d (opt_filename opts)
               (Some (get_accounts entries)) false = Ok r)
    (opt_documents opts) rs ->
  process_documents get_accounts entry_sortkey key_lt fs entries opts
  = Ok (sort_by_key entry_sortkey key_lt
          (entries ++ List.concat (map fst rs)),
        (verify_document_entries fs entries).2
          ++ List.concat (map snd rs)).
Proof.
  intros H. unfold process_documents. simpl.
  destruct (decide (opt_documents opts = [])) as [E|E].
  - rewrite (bool_decide_eq_true_2 _ E). rewrite E in H.
    apply Forall2_nil_inv_l in H as ->. reflexivity.
  - rewrite (bool_decide_eq_false_2 _ E). simpl.
    by rewrite (accumulate_loop _ _ _ _ rs).
Qed.

(** The orchestrator returns in no other case: an exception of a finder
    call is an exception of the orchestrator. *)
Lemma accumulate_loop_inv filename accounts fs dirs (st st' : found) :
  for_each (accumulate filename accounts fs) dirs st = Ok st' ->
  exists rs,
    Forall2 (fun d r =>
               find_documents fs d filename (Some accounts) false = Ok r)
      dirs rs.
Proof.
  revert st. induction dirs as [|d dirs IH]; intros [ents errs]; simpl.
  - intros _. exists []. constructor.
  - destruct (find_documents fs d filename (Some accounts) false)
      as [[new_entries new_errors]|e] eqn:Ed; simpl; [|done].
    intros [rs Hrs]%IH. exists ((new_entries, new_errors) :: rs).
    by constructor.
Qed.

Lemma process_documents_returns_inv fs entries opts r :
  process_documents get_accounts entry_sortkey key_lt fs entries opts = Ok r ->
  exists rs,
    Forall2 (fun d r =>
               find_documents fs d (opt_filename opts)
                 (Some (get_accounts entries)) false = Ok r)
      (opt_documents opts) rs.
Proof.
  unfold process_documents. simpl.
  destruct (decide (opt_documents opts = [])) as [E|E].
  - intros _. rewrite E. exists []. constructor.
  - rewrite (bool_decide_eq_false_2 _ E). simpl.
    destruct (for_each
                (accumulate (opt_filename opts) (get_accounts entries) fs)
                (opt_documents opts) ([], [])) as [st'|e] eqn:El;
      simpl; [|done].
    intros _. by eapply accumulate_loop_inv.
Qed.

(** C6: when every call of the finder returns, the orchestrator returns
    a rearrangement of its input and the directives found under all the
    configured roots, hence a list as long as its input plus the number of
    those directives, and that list is in non-decreasing order of the sort
    key. *)
Theorem process_documents_length_sorted fs entries opts rs :
  (forall a b, key_lt a b = true -> key_lt b a = false) ->
  (forall a b c,
     key_lt a b = false -> key_lt b c = false -> key_lt a c = false) ->
  Forall2 (fun d r =>
             find_documents fs d (opt_filename opts)
               (Some (get_accounts entries)) false = Ok r)
    (opt_documents opts) rs ->
  exists out errs,
    process_documents get_accounts entry_sortkey key_lt fs entries opts
    = Ok (out, errs) /\
    out ≡ₚ entries ++ List.concat (map fst rs) /\
    List.length out
    = (List.length entries
       + sum_list (map (fun r : found => List.length r.1) rs))%nat /\
    StronglySorted (key_le entry_sortkey key_lt) out.
Proof.
  intros Hasym Hneg H. eexists _, _. split; [|split; [|split]].
  - by apply process_documents_returns.
  - apply sort_by_key_Permutation.
  - rewrite sort_by_key_length, length_app. f_equal.
    clear H. induction rs as [|r rs IH]; simpl; [done|].
    by rewrite length_app, IH.
  - by apply sort_by_key_sorted.
Qed.

(** C7: when every call of the finder returns, the errors the
    orchestrator returns are those of the verifier followed by those of
    the finder, one block per configured root, in the order of the
    configuration. *)
Theorem process_documents_errors fs entries opts rs :
  Forall2 (fun d r =>
             find_documents fs d (opt_filename opts)
               (Some (get_accounts entries)) false = Ok r)
    (opt_documents opts) rs ->
  exists out,
    process_documents get_accounts entry_sortkey key_lt fs entries opts
    = Ok (out,
          (verify_document_entries fs entries).2
            ++ List.concat (map snd rs)).
Proof.
  intros H. eexists. by apply process_documents_returns.
Qed.

End OrchestratorRuns.

End Orchestrator.

(** ** The sample run of the orchestrator *)

Ltac case_keys :=
  repeat match goal with
         | |- context [Z.ltb ?x ?y] => destruct (Z.ltb_spec x y)
         | |- context [Z.eqb ?x ?y] => destruct (Z.eqb_spec x y)
         | H : context [Z.ltb ?x ?y] |- _ => destruct (Z.ltb_spec x y)
         | H : context [Z.eqb ?x ?y] |- _ => destruct (Z.eqb_spec x y)
         end.

Lemma sample_key_lt_asym a b :
  Samples.key_lt a b = true -> Samples.key_lt b a = false.
Proof.
  destruct a as [a1 a2], b as [b1 b2]. unfold Samples.key_lt. simpl.
  case_keys; simpl; intros; try done; lia.
Qed.

Lemma sample_key_lt_negtrans a b c :
  Samples.key_lt a b = false -> Samples.key_lt b c = false ->
  Samples.key_lt a c = false.
Proof.
  destruct a as [a1 a2], b as [b1 b2], c as [c1 c2].
  unfold Samples.key_lt. simpl.
  case_keys; simpl; intros; try done; lia.
Qed.

(** Two roots, one of them missing, with the sample collaborators. *)
Lemma process_documents_length_sorted_witness :
  exists out errs,
    process_documents Samples.get_accounts Samples.entry_sortkey
      Samples.key_lt Samples.fs_good
      [Samples.lost_document; Samples.open_cash]
      (mkoptions Samples.ledger ["docs"; "archive"])
    = Ok (out, errs) /\
    out ≡ₚ [Samples.lost_document; Samples.open_cash]
           ++ List.concat
                (map fst
                   [([Document (mkSource Samples.ledger 0) (mkdate 2014 3 1)
                        "Assets:Cash"
                        "/home/u/docs/Assets/Cash/2014-03-01.bill.pdf"],
                     [] : list DocumentError);
                    ([], [missing_root_error Samples.ledger
                            "/home/u/archive"])]) /\
    List.length out
    = (List.length [Samples.lost_document; Samples.open_cash]
       + sum_list
           (map (fun r : found => List.length r.1)
              [([Document (mkSource Samples.ledger 0) (mkdate 2014 3 1)
                   "Assets:Cash"
                   "/home/u/docs/Assets/Cash/2014-03-01.bill.pdf"], []);
               ([], [missing_root_error Samples.ledger "/home/u/archive"])]))%nat /\
    StronglySorted (key_le Samples.entry_sortkey Samples.key_lt) out.
Proof.
  apply (process_documents_length_sorted Samples.get_accounts
           Samples.entry_sortkey Samples.key_lt Samples.fs_good
           [Samples.lost_document; Samples.open_cash]
           (mkoptions Samples.ledger ["docs"; "archive"])).
  - apply sample_key_lt_asym.
  - apply sample_key_lt_negtrans.
  - constructor; [vm_compute; reflexivity|].
    constructor; [vm_compute; reflexivity|]. constructor.
Defined.

(** Three roots of which the first and the last are missing: their errors
    come after the verifier's, in the order of the roots. *)
Lemma process_documents_errors_witness :
  exists out,
    process_documents Samples.get_accounts Samples.entry_sortkey
      Samples.key_lt Samples.fs_good
      [Samples.lost_document; Samples.open_cash]
      (mkoptions Samples.ledger ["archive"; "docs"; "attic"])
    = Ok (out,
          [mkDocumentError (mkSource Samples.ledger 7)
             ("File does not exist: " +:+ dquote +:+ "/home/u/lost.pdf"
                +:+ dquote)
             (Some Samples.lost_document);
           mkDocumentError (mkSource Samples.ledger 0)
             "Document root '/home/u/archive' does not exist." None;
           mkDocumentError (mkSource Samples.ledger 0)
             "Document root '/home/u/attic' does not exist." None]).
Proof.
  apply (process_documents_errors Samples.get_accounts Samples.entry_sortkey
           Samples.key_lt Samples.fs_good
           [Samples.lost_document; Samples.open_cash]
           (mkoptions Samples.ledger ["archive"; "docs"; "attic"])
           [([], [missing_root_error Samples.ledger "/home/u/archive"]);
            ([Document (mkSource Samples.ledger 0) (mkdate 2014 3 1)
                "Assets:Cash"
                "/home/u/docs/Assets/Cash/2014-03-01.bill.pdf"], []);
            ([], [missing_root_error Samples.ledger "/home/u/attic"])]).
  constructor; [vm_compute; reflexivity|].
  constructor; [vm_compute; reflexivity|].
  constructor; [vm_compute; reflexivity|]. constructor.
Defined.

(** The sample run itself: the entries come back in order of date with
    the bill found on disk between them. *)
Example process_documents_sample :
  process_documents Samples.get_accounts Samples.entry_sortkey Samples.key_lt
    Samples.fs_good [Samples.lost_document; Samples.open_cash]
    (mkoptions Samples.ledger ["docs"])
  = Ok ([Samples.open_cash;
         Document (mkSource Samples.ledger 0) (mkdate 2014 3 1) "Assets:Cash"
           "/home/u/docs/Assets/Cash/2014-03-01.bill.pdf";
         Samples.lost_document],
        [missing_file_error Samples.lost_document "/home/u/lost.pdf"]).
Proof. vm_compute. reflexivity. Qed.

(** ** The strict flag *)

Section StrictFlag.
Context {db : UnicodeDB}.

(** Two loops over the same list that keep a relation between their
    states. *)
Lemma for_each_lockstep {A S1 S2} (body1 : S1 -> A -> result S1)
    (body2 : S2 -> A -> result S2) (Rel : S1 -> S2 -> Prop) l s1 s2 s1' :
  (forall s1 s2 x s1',
     Rel s1 s2 -> body1 s1 x = Ok s1' ->
     exists s2', body2 s2 x = Ok s2' /\ Rel s1' s2') ->
  Rel s1 s2 ->
  for_each body1 l s1 = Ok s1' ->
  exists s2', for_each body2 l s2 = Ok s2' /\ Rel s1' s2'.
Proof.
  intros Hb. revert s1 s2. induction l as [|x l IH]; intros s1 s2 Hr; simpl.
  - intros [= <-]. by exists s2.
  - destruct (body1 s1 x) as [t1|e] eqn:E1; simpl; [|done].
    destruct (Hb _ _ _ _ Hr E1) as (t2 & -> & Hr'). simpl. by apply IH.
Qed.

(** The flag changes neither the directives a file adds nor whether it
    raises; with the flag clear the file adds no error. *)
Lemma scan_file_any_strict input accounts_only strict1 strict2 root
    account_name entries errors1 errors2 filename st1 :
  scan_file input accounts_only strict1 root account_name (entries, errors1)
    filename = Ok st1 ->
  exists errors2',
    scan_file input accounts_only strict2 root account_name
      (entries, errors2) filename = Ok (st1.1, errors2') /\
    (strict2 = false -> errors2' = errors2).
Proof.
  intros H1.
  destruct (scan_file_cases input accounts_only strict1 root account_name
              entries errors1 filename)
    as [(E & _) | [(date & E & Hd & Hp & Hn)
                  | (new_errors & E & _ & _ & Hskip)]];
    rewrite E in H1; [done| |]; injection H1 as <-; cbn [fst].
  - exists errors2. rewrite scan_file_kept by done. by rewrite Hn.
  - destruct Hskip as [Hd|Hp].
    + exists errors2. by rewrite scan_file_undated.
    + destruct (scan_file_skipped input accounts_only strict2 root
                  account_name entries errors2 filename Hp)
        as (new2 & -> & _ & Hs).
      exists (errors2 ++ new2). split; [done|].
      intros ->%Hs. by rewrite app_nil_r.
Qed.

Lemma find_documents_any_strict fs directory input accounts_only strict1
    strict2 entries errs1 :
  find_documents fs directory input accounts_only strict1
  = Ok (entries, errs1) ->
  exists errs2,
    find_documents fs directory input accounts_only strict2
    = Ok (entries, errs2) /\
    (strict2 = false -> errs2 = missing_roots fs input [directory]).
Proof.
  unfold find_documents, missing_roots. simpl.
  destruct (path_exists fs (resolve_directory fs directory input)); simpl.
  2: { intros [= <- <-]. by eexists. }
  intros H.
  apply (for_each_lockstep _
           (scan_directory input accounts_only strict2)
           (fun s1 s2 : found =>
              s1.1 = s2.1 /\ (strict2 = false -> s2.2 = []))
           _ _ ([], [])) in H as ([ents2 errs2] & -> & Hrel); [| |done].
  - simpl in Hrel. destruct Hrel as [<- Hrel]. by exists errs2.
  - intros s1 s2 [[[root account_name] dirs] files] s1' Hrel Hdir.
    unfold scan_directory in *.
    apply (for_each_lockstep _
             (scan_file input accounts_only strict2 root account_name)
             (fun s1 s2 : found =>
                s1.1 = s2.1 /\ (strict2 = false -> s2.2 = []))
             _ _ s2) in Hdir; [done| |done].
    intros [e1 r1] [e2 r2] filename t1 [He Hr] Hscan. simpl in He, Hr.
    subst e2.
    destruct (scan_file_any_strict _ _ _ strict2 _ _ _ _ r2 _ _ Hscan)
      as (r2' & -> & Hr2).
    eexists. split; [done|]. simpl. split; [done|].
    intros Hs. rewrite (Hr2 Hs). by apply Hr.
Qed.

(** X5: the strict flag only adds errors. The finder returns a list of
    directives in strict mode exactly when it returns it with the flag
    clear, and with the flag clear its only error is the one for a
    missing root. *)
Theorem strict_only_adds_errors fs directory input accounts_only entries :
  (exists errs,
     find_documents fs directory input accounts_only true
     = Ok (entries, errs))
  <->
  find_documents fs directory input accounts_only false
  = Ok (entries, missing_roots fs input [directory]).
Proof.
  split.
  - intros [errs H].
    destruct (find_documents_any_strict _ _ _ _ _ false _ _ H)
      as (errs2 & -> & Hm). by rewrite Hm.
  - intros H.
    destruct (find_documents_any_strict _ _ _ _ _ true _ _ H)
      as (errs2 & -> & _). by exists errs2.
Qed.

End StrictFlag.

(** ** The errors of the orchestrator *)

Section Errors.
Context {db : UnicodeDB}.

Section OrchestratorErrors.
Context {K : Type}.
Variable get_accounts : list directive -> gset string.
Variable entry_sortkey : directive -> K.
Variable key_lt : K -> K -> bool.

Lemma missing_roots_cons fs filename d dirs :
  missing_roots fs filename (d :: dirs)
  = missing_roots fs filename [d] ++ missing_roots fs filename dirs.
Proof. unfold missing_roots. simpl. by rewrite app_nil_r. Qed.

Lemma finder_errors_missing_roots fs filename accounts dirs rs :
  Forall2 (fun d r =>
             find_documents fs d filename (Some accounts) false = Ok r)
    dirs rs ->
  List.concat (map snd rs) = missing_roots fs filename dirs.
Proof.
  induction 1 as [|d [ents errs] dirs rs Hd _ IH]; [done|].
  rewrite missing_roots_cons. simpl. rewrite IH. f_equal.
  destruct (find_documents_any_strict _ _ _ _ _ false _ _ Hd)
    as (errs2 & Hd2 & Hm). rewrite Hd in Hd2. injection Hd2 as <-.
  by apply Hm.
Qed.

(** X6: when the orchestrator returns, its errors are those of the
    verifier followed by one "Document root ... does not exist." error
    for each configured root that is missing, in the order of the
    configuration, and nothing else: it never reports a file found
    outside the accounts of the ledger. *)
Theorem process_documents_error_list fs entries opts out errs :
  process_documents get_accounts entry_sortkey key_lt fs entries opts
  = Ok (out, errs) ->
  errs = (verify_document_entries fs entries).2
         ++ missing_roots fs (opt_filename opts) (opt_documents opts).
Proof.
  intros H.
  destruct (process_documents_returns_inv get_accounts entry_sortkey key_lt
              fs entries opts _ H) as [rs Hrs].
  rewrite (process_documents_returns get_accounts entry_sortkey key_lt
             fs entries opts rs Hrs) in H.
  injection H as _ <-. f_equal.
  by eapply finder_errors_missing_roots.
Qed.

End OrchestratorErrors.

End Errors.

(** The sample run with one root on disk between two that are missing. *)
Lemma process_documents_error_list_witness :
  [mkDocumentError (mkSource Samples.ledger 7)
     ("File does not exist: " +:+ dquote +:+ "/home/u/lost.pdf" +:+ dquote)
     (Some Samples.lost_document);
   mkDocumentError (mkSource Samples.ledger 0)
     "Document root '/home/u/archive' does not exist." None;
   mkDocumentError (mkSource Samples.ledger 0)
     "Document root '/home/u/attic' does not exist." None]
  = (verify_document_entries Samples.fs_good
       [Samples.lost_document; Samples.open_cash]).2
    ++ missing_roots Samples.fs_good Samples.ledger
         ["archive"; "docs"; "attic"].
Proof.
  apply (process_documents_error_list Samples.get_accounts
           Samples.entry_sortkey Samples.key_lt Samples.fs_good
           [Samples.lost_document; Samples.open_cash]
           (mkoptions Samples.ledger ["archive"; "docs"; "attic"])
           [Samples.open_cash;
            Document (mkSource Samples.ledger 0) (mkdate 2014 3 1)
              "Assets:Cash" "/home/u/docs/Assets/Cash/2014-03-01.bill.pdf";
            Samples.lost_document]).
  vm_compute. reflexivity.
Defined.

(** ** The size of the result *)

Section Size.
Context {db : UnicodeDB}.

Lemma scan_file_grows input accounts_only strict root account_name st
    filename st' :
  scan_file input accounts_only strict root account_name st filename = Ok st'
  ->
  (List.length st'.1 + List.length st'.2
   <= List.length st.1 + List.length st.2 + 1)%nat.
Proof.
  destruct st as [entries errors]. intros Hscan.
  destruct (scan_file_cases input accounts_only strict root account_name
              entries errors filename)
    as [(E & _) | [(date & E & _) | (new_errors & E & Hl & _)]];
    rewrite E in Hscan; [done| |]; injection Hscan as <-; simpl;
    rewrite length_app; simpl; lia.
Qed.

Lemma scan_directory_grows input accounts_only strict st root account_name
    dirs files st' :
  scan_directory input accounts_only strict st
    (root, account_name, dirs, files) = Ok st' ->
  (List.length st'.1 + List.length st'.2
   <= List.length st.1 + List.length st.2 + List.length files)%nat.
Proof.
  unfold scan_directory. revert st.
  induction files as [|f files IH]; intros st; simpl.
  - intros [= <-]. lia.
  - destruct (scan_file input accounts_only strict root account_name st f)
      as [st1|e] eqn:E; simpl; [|done].
    intros H%IH. apply scan_file_grows in E. lia.
Qed.

(** X7: a file gives at most one thing, a directive or an error: when the
    root exists, the directives and the errors the finder returns are
    together no more than the files the walk lists. *)
Theorem find_documents_bounded fs directory input accounts_only strict
    entries errs :
  path_exists fs (resolve_directory fs directory input) = true ->
  find_documents fs directory input accounts_only strict = Ok (entries, errs)
  ->
  (List.length entries + List.length errs
   <= walked_files (walk fs (resolve_directory fs directory input)))%nat.
Proof.
  unfold find_documents. intros -> H. simpl in H.
  assert (Hgen : forall items (st st' : found),
            for_each (scan_directory input accounts_only strict) items st
            = Ok st' ->
            (List.length st'.1 + List.length st'.2
             <= List.length st.1 + List.length st.2 + walked_files items)%nat).
  { induction items as [|[[[root account_name] dirs] files] items IH];
      intros st st'; cbn [for_each].
    - intros [= <-]. unfold walked_files. simpl. lia.
    - destruct (scan_directory input accounts_only strict st
                  (root, account_name, dirs, files)) as [st1|e] eqn:E;
        cbn [mbind result_bind]; [|done].
      intros Hrest%IH. apply scan_directory_grows in E.
      unfold walked_files in *. simpl. lia. }
  apply Hgen in H. simpl in H. lia.
Qed.

End Size.

(** The strict walk of the sample bank tree: three things from five
    files. *)
Lemma find_documents_bounded_witness :
  (List.length
     [Document (mkSource Samples.ledger 0) (mkdate 2014 1 2)
        "Assets:Bank:Checking"
        "/home/u/docs/Assets/Bank/Checking/2014-01-02.statement.pdf"]
   + List.length
       [parent_error Samples.ledger "2014-01-01.summary.pdf" "Assets";
        child_error Samples.ledger "2014-01-03.slip.pdf"
          "Assets:Bank:Checking:Sub"]
   <= walked_files
        (walk Samples.fs_bank
           (resolve_directory Samples.fs_bank "docs" Samples.ledger)))%nat.
Proof.
  apply (find_documents_bounded Samples.fs_bank "docs" Samples.ledger
           (Some {[ "Assets:Bank:Checking" ]}) true).
  - reflexivity.
  - vm_compute. reflexivity.
Defined.

(** ** A tree outside the filter *)

Section Outside.
Context {db : UnicodeDB}.

Lemma for_each_fixed {A S} (body : S -> A -> result S) l s :
  (forall x, x ∈ l -> body s x = Ok s) -> for_each body l s = Ok s.
Proof.
  induction l as [|x l IH]; intros Hb; simpl; [done|].
  rewrite Hb by (by left). simpl. apply IH. intros y Hy. apply Hb. by right.
Qed.

Lemma passes_filter_outside account_name (accounts : gset string) :
  accounts <> ∅ -> account_name ∉ accounts ->
  passes_filter account_name (Some accounts) = false.
Proof.
  intros Hne Hnotin. unfold passes_filter, truthy, member.
  by rewrite (bool_decide_eq_false_2 _ Hne), (bool_decide_eq_false_2 _ Hnotin).
Qed.

(** X8: with a non-empty filter and the strict flag clear, a tree none of
    whose directories is a filtered account gives no directive and no
    error, and the finder returns even if the tree holds files with
    dates that are not in the calendar. *)
Theorem find_documents_outside_filter fs directory input
    (accounts : gset string) :
  accounts <> ∅ ->
  path_exists fs (resolve_directory fs directory input) = true ->
  (forall root account_name dirs files,
     (root, account_name, dirs, files)
       ∈ walk fs (resolve_directory fs directory input) ->
     account_name ∉ accounts) ->
  find_documents fs directory input (Some accounts) false = Ok ([], []).
Proof.
  intros Hne Hroot Hout. unfold find_documents. rewrite Hroot. simpl.
  apply for_each_fixed. intros [[[root account_name] dirs] files] Hitem.
  unfold scan_directory. apply for_each_fixed. intros filename _.
  destruct (scan_file_skipped input (Some accounts) false root account_name
              [] [] filename) as (new_errors & -> & _ & Hs).
  { apply passes_filter_outside; [done|]. by eapply Hout. }
  by rewrite (Hs eq_refl).
Qed.

End Outside.

(** The sample tree with 31 February in it, seen through a filter of
    another account. *)
Lemma find_documents_outside_filter_witness :
  find_documents Samples.fs_feb31 "docs" Samples.ledger
    (Some {[ "Expenses:Food" ]}) false = Ok ([], []).
Proof.
  apply (find_documents_outside_filter Samples.fs_feb31 "docs" Samples.ledger
           {[ "Expenses:Food" ]}).
  - apply non_empty_singleton_L.
  - reflexivity.
  - intros root account_name dirs files Hin.
    change (walk Samples.fs_feb31
              (resolve_directory Samples.fs_feb31 "docs" Samples.ledger))
      with [("/home/u/docs", "", ["Assets"], [] : list string);
            ("/home/u/docs/Assets", "Assets", ["Cash"], []);
            ("/home/u/docs/Assets/Cash", "Assets:Cash", [],
             ["2014-02-31.receipt.pdf"; "2014-03-01.bill.pdf"])] in Hin.
    repeat (apply elem_of_cons in Hin as [Heq|Hin];
            [injection Heq as -> -> -> ->; by intros [=]%elem_of_singleton|]).
    by apply elem_of_nil in Hin.
Defined.

(** ** More on the orchestrator *)

Section More.
Context {db : UnicodeDB}.

Section OrchestratorMore.
Context {K : Type}.
Variable get_accounts : list directive -> gset string.
Variable entry_sortkey : directive -> K.
Variable key_lt : K -> K -> bool.

(** Sorting leaves a list that is in order as it is. *)
Lemma sort_by_key_sorted_id l :
  StronglySorted (key_le entry_sortkey key_lt) l ->
  sort_by_key entry_sortkey key_lt l = l.
Proof.
  induction 1 as [|x l Hl IH Hx]; simpl; [done|]. rewrite IH.
  destruct Hx as [|y l Hy _]; simpl; [done|].
  unfold key_le in Hy. by rewrite Hy.
Qed.

Lemma Forall_exists_Forall2 {A B} (P : A -> B -> Prop) (l : list A) :
  Forall (fun x => exists y, P x y) l -> exists k, Forall2 P l k.
Proof.
  induction 1 as [|x l [y Hy] _ [k Hk]].
  - exists []. constructor.
  - exists (y :: k). by constructor.
Qed.

(** X11: when the entries are already in the order of the sort key and
    no configured root yields a directive, the orchestrator returns the
    entries as they were given, in the same order. *)
Theorem process_documents_unchanged fs entries opts :
  StronglySorted (key_le entry_sortkey key_lt) entries ->
  Forall (fun d =>
            exists errs,
              find_documents fs d (opt_filename opts)
                (Some (get_accounts entries)) false = Ok ([], errs))
    (opt_documents opts) ->
  exists errs,
    process_documents get_accounts entry_sortkey key_lt fs entries opts
    = Ok (entries, errs).
Proof.
  intros Hsorted Hnone.
  assert (Hrs : exists rs,
            Forall2 (fun d r =>
                       find_documents fs d (opt_filename opts)
                         (Some (get_accounts entries)) false = Ok r
                       /\ r.1 = [])
              (opt_documents opts) rs).
  { apply Forall_exists_Forall2. eapply Forall_impl; [exact Hnone|].
    intros d [errs Hd]. by exists ([], errs). }
  destruct Hrs as [rs Hrs].
  assert (Hfst : List.concat (map fst rs) = []).
  { clear -Hrs. induction Hrs as [|d r dirs rs [_ Hr] _ IH]; simpl; [done|].
    by rewrite Hr, IH. }
  eexists.
  rewrite (process_documents_returns get_accounts entry_sortkey key_lt fs
             entries opts rs).
  - rewrite Hfst, app_nil_r, sort_by_key_sorted_id by done. reflexivity.
  - eapply Forall2_impl; [exact Hrs|]. by intros d r [? _].
Qed.

Lemma accumulate_raises filename accounts fs (st : found) d :
  accumulate filename accounts fs st d = Raise ValueError <->
  find_documents fs d filename (Some accounts) false = Raise ValueError.
Proof.
  unfold accumulate. destruct st as [ents errs].
  destruct (find_documents fs d filename (Some accounts) false)
    as [[new_entries new_errors]|[]]; simpl; done.
Qed.

(** When the orchestrator raises. *)
Lemma process_documents_raises_iff fs entries opts :
  process_documents get_accounts entry_sortkey key_lt fs entries opts
  = Raise ValueError <->
  Exists (fun d =>
            find_documents fs d (opt_filename opts)
              (Some (get_accounts entries)) false = Raise ValueError)
    (opt_documents opts).
Proof.
  unfold process_documents. simpl.
  destruct (decide (opt_documents opts = [])) as [E|E].
  - rewrite (bool_decide_eq_true_2 _ E), E. simpl.
    rewrite Exists_nil. done.
  - rewrite (bool_decide_eq_false_2 _ E). simpl.
    rewrite <- (for_each_raises
                  (accumulate (opt_filename opts) (get_accounts entries) fs)
                  _ (opt_documents opts) ([], []))
      by (intros st d; apply accumulate_raises).
    destruct (for_each
                (accumulate (opt_filename opts) (get_accounts entries) fs)
                (opt_documents opts) ([], [])) as [[ents errs]|[]]; simpl;
      done.
Qed.

(** X12: the orchestrator raises [ValueError] exactly when the finder
    raises it for one of the configured roots; with no root configured it
    always returns. *)
Theorem process_documents_raises fs entries opts :
  process_documents get_accounts entry_sortkey key_lt fs entries opts
  = Raise ValueError <->
  Exists (fun d =>
            find_documents fs d (opt_filename opts)
              (Some (get_accounts entries)) false = Raise ValueError)
    (opt_documents opts).
Proof. apply process_documents_raises_iff. Qed.

End OrchestratorMore.

End More.

(** A sorted sample ledger and roots that are all missing. *)
Lemma process_documents_unchanged_witness :
  exists errs,
    process_documents Samples.get_accounts Samples.entry_sortkey
      Samples.key_lt Samples.fs_good
      [Samples.open_cash; Samples.lost_document]
      (mkoptions Samples.ledger ["archive"; "attic"])
    = Ok ([Samples.open_cash; Samples.lost_document], errs).
Proof.
  apply (process_documents_unchanged Samples.get_accounts
           Samples.entry_sortkey Samples.key_lt Samples.fs_good
           [Samples.open_cash; Samples.lost_document]
           (mkoptions Samples.ledger ["archive"; "attic"])).
  - repeat constructor.
  - repeat constructor; eexists; vm_compute; reflexivity.
Defined.

(** ** The order of the directives *)

Section Order.
Context {db : UnicodeDB}.

Lemma scan_file_directives input accounts_only strict root account_name
    entries errors filename st' :
  scan_file input accounts_only strict root account_name (entries, errors)
    filename = Ok st' ->
  st'.1 = entries
          ++ file_directives input accounts_only root account_name filename.
Proof.
  intros Hscan. unfold file_directives.
  destruct (scan_file_cases input accounts_only strict root account_name
              entries errors filename)
    as [(E & _) | [(date & E & Hd%is_dated_name_true & Hp & Hn)
                  | (new_errors & E & _ & _ & Hskip)]];
    rewrite E in Hscan; [done| |]; injection Hscan as <-; cbn [fst].
  - by rewrite Hd, Hp, Hn.
  - destruct Hskip as [Hd | Hp].
    + destruct (is_dated_name filename) eqn:Ed.
      * by apply is_dated_name_true in Ed.
      * by rewrite app_nil_r.
    + rewrite Hp, andb_false_r. by rewrite app_nil_r.
Qed.

Lemma scan_directory_directives input accounts_only strict root account_name
    dirs files (st st' : found) :
  scan_directory input accounts_only strict st
    (root, account_name, dirs, files) = Ok st' ->
  st'.1 = st.1
          ++ flat_map (file_directives input accounts_only root account_name)
               files.
Proof.
  unfold scan_directory. revert st.
  induction files as [|f files IH]; intros [entries errors];
    cbn [for_each flat_map].
  - intros [= <-]. by rewrite app_nil_r.
  - destruct (scan_file input accounts_only strict root account_name
                (entries, errors) f) as [[e1 r1]|e] eqn:E;
      cbn [mbind result_bind]; [|done].
    intros ->%IH. apply scan_file_directives in E. cbn [fst] in *. subst e1.
    by rewrite <- app_assoc.
Qed.

(** X13: when the finder returns and its root exists, its directives are
    those of the files of the walk in the order of the walk: directory
    after directory as the walk yields them, and within a directory file
    after file as the walk lists them. *)
Theorem find_documents_walk_order fs directory input accounts_only strict
    entries errs :
  path_exists fs (resolve_directory fs directory input) = true ->
  find_documents fs directory input accounts_only strict = Ok (entries, errs)
  ->
  entries
  = walk_directives input accounts_only
      (walk fs (resolve_directory fs directory input)).
Proof.
  unfold find_documents. intros -> H. simpl in H.
  assert (Hgen : forall items (st st' : found),
            for_each (scan_directory input accounts_only strict) items st
            = Ok st' ->
            st'.1 = st.1 ++ walk_directives input accounts_only items).
  { induction items as [|[[[root account_name] dirs] files] items IH];
      intros st st'; cbn [for_each].
    - intros [= <-]. unfold walk_directives. simpl. by rewrite app_nil_r.
    - destruct (scan_directory input accounts_only strict st
                  (root, account_name, dirs, files)) as [st1|e] eqn:E;
        cbn [mbind result_bind]; [|done].
      intros ->%IH. apply scan_directory_directives in E. rewrite E.
      unfold walk_directives. simpl. by rewrite <- app_assoc. }
  by apply Hgen in H.
Qed.

End Order.

(** The strict walk of the sample bank tree. *)
Lemma find_documents_walk_order_witness :
  [Document (mkSource Samples.ledger 0) (mkdate 2014 1 2)
     "Assets:Bank:Checking"
     "/home/u/docs/Assets/Bank/Checking/2014-01-02.statement.pdf"]
  = walk_directives Samples.ledger (Some {[ "Assets:Bank:Checking" ]})
      (walk Samples.fs_bank
         (resolve_directory Samples.fs_bank "docs" Samples.ledger)).
Proof.
  apply (find_documents_walk_order Samples.fs_bank "docs" Samples.ledger
           (Some {[ "Assets:Bank:Checking" ]}) true _
           [parent_error Samples.ledger "2014-01-01.summary.pdf" "Assets";
            child_error Samples.ledger "2014-01-03.slip.pdf"
              "Assets:Bank:Checking:Sub"]).
  - reflexivity.
  - vm_compute. reflexivity.
Defined.

(** ** The accounts of the directives the orchestrator adds *)

Section Accounts.
Context {db : UnicodeDB}.

Section OrchestratorAccounts.
Context {K : Type}.
Variable get_accounts : list directive -> gset string.
Variable entry_sortkey : directive -> K.
Variable key_lt : K -> K -> bool.

Lemma passes_filter_Some account_name (accounts : gset string) :
  passes_filter account_name (Some accounts) = true ->
  accounts = ∅ \/ account_name ∈ accounts.
Proof.
  unfold passes_filter, truthy, member.
  destruct (decide (accounts = ∅)) as [->|Hne]; [by left|].
  rewrite (bool_decide_eq_false_2 _ Hne). simpl.
  rewrite negb_involutive. intros H%bool_decide_eq_true. by right.
Qed.

(** X14: every entry the orchestrator returns is an entry it was given or
    a document directive at line 0 of the ledger file whose account is
    one of the accounts of the given entries; only when the given
    entries have no account at all is a directive of any account
    added. *)
Theorem process_documents_accounts fs entries opts out errs :
  process_documents get_accounts entry_sortkey key_lt fs entries opts
  = Ok (out, errs) ->
  Forall (fun e =>
            e ∈ entries \/
            exists date account_name path,
              e = Document (mkSource (opt_filename opts) 0) date account_name
                    path /\
              (get_accounts entries = ∅ \/
               account_name ∈ get_accounts entries))
    out.
Proof.
  intros H.
  destruct (process_documents_returns_inv get_accounts entry_sortkey key_lt
              fs entries opts _ H) as [rs Hrs].
  rewrite (process_documents_returns get_accounts entry_sortkey key_lt
             fs entries opts rs Hrs) in H.
  injection H as <- _.
  rewrite sort_by_key_Permutation. apply Forall_app. split.
  - apply Forall_forall. intros e He. by left.
  - clear -Hrs. induction Hrs as [|d [ents errs] dirs rs Hd _ IH]; simpl.
    { constructor. }
    apply Forall_app. split; [|exact IH].
    apply find_documents_found_in in Hd. eapply Forall_impl; [exact Hd|].
    intros e (root & account_name & ds & files & filename & date & -> & _
              & _ & _ & Hp%passes_filter_Some & _).
    right. by exists date, account_name, (PosixPath.join root filename).
Qed.

End OrchestratorAccounts.

End Accounts.

(** The sample run: the bill is filed under the account the ledger
    opens. *)
Lemma process_documents_accounts_witness :
  Forall (fun e =>
            e ∈ [Samples.lost_document; Samples.open_cash] \/
            exists date account_name path,
              e = Document (mkSource Samples.ledger 0) date account_name path
              /\
              (Samples.get_accounts [Samples.lost_document; Samples.open_cash]
               = ∅ \/
               account_name
                 ∈ Samples.get_accounts
                     [Samples.lost_document; Samples.open_cash]))
    [Samples.open_cash;
     Document (mkSource Samples.ledger 0) (mkdate 2014 3 1) "Assets:Cash"
       "/home/u/docs/Assets/Cash/2014-03-01.bill.pdf";
     Samples.lost_document].
Proof.
  apply (process_documents_accounts Samples.get_accounts Samples.entry_sortkey
           Samples.key_lt Samples.fs_good
           [Samples.lost_document; Samples.open_cash]
           (mkoptions Samples.ledger ["docs"]) _
           [missing_file_error Samples.lost_document "/home/u/lost.pdf"]).
  vm_compute. reflexivity.
Defined.

(** ** Where the scope errors come from *)

Section Scope.
Context {db : UnicodeDB}.

Lemma scan_file_scope_error input accounts_only strict root account_name
    entries errors filename st' :
  scan_file input accounts_only strict root account_name (entries, errors)
    filename = Ok st' ->
  st'.2 = errors \/
  (dated_name filename /\
   passes_filter account_name accounts_only = false /\
   (st'.2 = errors ++ [child_error input filename account_name] \/
    st'.2 = errors ++ [parent_error input filename account_name])).
Proof.
  unfold scan_file.
  destruct (Re.match_ date_pattern (decode filename)) as [mo|] eqn:Hmo.
  2: { intros [= <-]. by left. }
  assert (Hd : dated_name filename) by (apply match_date_pattern; eauto).
  rewrite passes_filter_guard.
  destruct (passes_filter account_name accounts_only) eqn:Hp; cbn [negb].
  - destruct (int (Re.group mo 1)); simpl; [|done].
    destruct (int (Re.group mo 2)); simpl; [|done].
    destruct (int (Re.group mo 3)); simpl; [|done].
    destruct (Datetime.new _ _ _); simpl; [|done].
    intros [= <-]. by left.
  - destruct strict; [|intros [= <-]; by left].
    destruct (any _ accounts_only).
    { intros [= <-]. right. repeat split; try done. by left. }
    destruct (any _ accounts_only); intros [= <-]; [|by left].
    right. repeat split; try done. by right.
Qed.

(** X15: when the root exists, every error the finder returns is a "child
    account" or "parent account" error that names a file the walk lists,
    whose name starts with a date, together with the account of its
    directory, and that directory is one the filter skips. *)
Theorem find_documents_scope_errors fs directory input accounts_only strict
    entries errs :
  path_exists fs (resolve_directory fs directory input) = true ->
  find_documents fs directory input accounts_only strict = Ok (entries, errs)
  ->
  Forall (scope_error_of fs directory input accounts_only) errs.
Proof.
  unfold find_documents. intros -> H. simpl in H.
  apply (for_each_invariant_in
           (fun st : found =>
              Forall (scope_error_of fs directory input accounts_only) st.2))
    in H; [done| |by constructor].
  intros st [[[root account_name] dirs] files] st' Hitem Hst Hdir.
  unfold scan_directory in Hdir.
  apply (for_each_invariant_in
           (fun st : found =>
              Forall (scope_error_of fs directory input accounts_only) st.2))
    in Hdir; [done| |done].
  intros [ents1 errs1] filename st2 Hfile Hst1 Hscan. cbn [snd] in Hst1.
  destruct (scan_file_scope_error _ _ _ _ _ _ _ _ _ Hscan)
    as [-> | (Hd & Hp & Herr)]; [done|].
  assert (Hone : forall err,
            err = child_error input filename account_name \/
            err = parent_error input filename account_name ->
            scope_error_of fs directory input accounts_only err).
  { intros err Herr'. by exists root, account_name, dirs, files, filename. }
  destruct Herr as [-> | ->]; apply Forall_app; (split; [done|]);
    constructor; try constructor; apply Hone; [by left | by right].
Qed.

End Scope.

(** The two scope errors of the strict walk of the sample bank tree. *)
Lemma find_documents_scope_errors_witness :
  Forall (scope_error_of Samples.fs_bank "docs" Samples.ledger
            (Some {[ "Assets:Bank:Checking" ]}))
    [parent_error Samples.ledger "2014-01-01.summary.pdf" "Assets";
     child_error Samples.ledger "2014-01-03.slip.pdf"
       "Assets:Bank:Checking:Sub"].
Proof.
  apply (find_documents_scope_errors Samples.fs_bank "docs" Samples.ledger
           (Some {[ "Assets:Bank:Checking" ]}) true
           [Document (mkSource Samples.ledger 0) (mkdate 2014 1 2)
              "Assets:Bank:Checking"
              "/home/u/docs/Assets/Bank/Checking/2014-01-02.statement.pdf"]).
  - reflexivity.
  - vm_compute. reflexivity.
Defined.

(** ** Dates that do not exist *)

Section InvalidDate.
Context {db : UnicodeDB}.

Lemma feb31_raises :
  find_documents Samples.fs_feb31 "docs" Samples.ledger
    (Some (Samples.get_accounts [Samples.open_cash])) false
  = Raise ValueError /\
  find_documents Samples.fs_feb31 "docs" Samples.ledger None false
  = Raise ValueError.
Proof.
  assert (Hfile :
    exists root account_name dirs files filename,
      (root, account_name, dirs, files)
        ∈ walk Samples.fs_feb31
            (resolve_directory Samples.fs_feb31 "docs" Samples.ledger) /\
      filename ∈ files /\
      dated_name filename /\
      (passes_filter account_name
         (Some (Samples.get_accounts [Samples.open_cash])) = true /\
       passes_filter account_name None = true) /\
      name_date filename = Raise ValueError).
  { exists "/home/u/docs/Assets/Cash", "Assets:Cash", [],
      ["2014-02-31.receipt.pdf"; "2014-03-01.bill.pdf"],
      "2014-02-31.receipt.pdf".
    split; [|split; [|split; [|split]]].
    - change (walk Samples.fs_feb31
                (resolve_directory Samples.fs_feb31 "docs" Samples.ledger))
        with [("/home/u/docs", "", ["Assets"], [] : list string);
              ("/home/u/docs/Assets", "Assets", ["Cash"], []);
              ("/home/u/docs/Assets/Cash", "Assets:Cash", [],
               ["2014-02-31.receipt.pdf"; "2014-03-01.bill.pdf"])].
      do 2 right. left.
    - left.
    - apply (dated_name_bytes "2" "0" "1" "4" "0" "2" "3" "1" "."
               "receipt.pdf"); [repeat constructor | discriminate].
    - split; [vm_compute; reflexivity | reflexivity].
    - rewrite (name_date_digits "2" "0" "1" "4" "0" "2" "3" "1"
                 ".receipt.pdf") by repeat constructor.
      reflexivity. }
  destruct Hfile as (root & account_name & dirs & files & filename & Hitem
                     & Hin & Hd & [Hp1 Hp2] & Hn).
  split; apply find_documents_raises_iff; (split; [reflexivity|]);
    by exists root, account_name, dirs, files, filename.
Qed.

(** C3 fails on the code: a file named after 31 February in the directory
    of a known account ends [find_documents], and with it
    [process_documents], with [ValueError]; no pair is returned. *)
Theorem invalid_date_raises :
  find_documents Samples.fs_feb31 "docs" Samples.ledger None false
  = Raise ValueError /\
  process_documents Samples.get_accounts Samples.entry_sortkey Samples.key_lt
    Samples.fs_feb31 [Samples.open_cash] (mkoptions Samples.ledger ["docs"])
  = Raise ValueError.
Proof.
  split; [apply feb31_raises|].
  apply process_documents_raises_iff. left. apply feb31_raises.
Qed.

End InvalidDate.

(** ** Resolution of the directory *)

Section PosixPathFacts.
Import PosixPath.
Import Components.

Local Abbreviation walk_from := (fold_left collapse_step).

Lemma Forall_removelast {A} (P : A -> Prop) (l : list A) :
  Forall P l -> Forall P (List.removelast l).
Proof.
  induction 1 as [|x l Hx Hl IH]; simpl; [constructor|].
  destruct l; [constructor | by constructor].
Qed.

Lemma Forall_last {A} (P : A -> Prop) (l : list A) (d : A) :
  l <> [] -> Forall P l -> P (List.last l d).
Proof.
  intros Hne Hl. induction Hl as [|x l Hx Hl IH]; [done|].
  simpl. destruct l; [done|]. by apply IH.
Qed.

Lemma removelast_snoc {A} (l : list A) (x : A) :
  List.removelast (l ++ [x]) = l.
Proof. apply List.removelast_last. Qed.

(** *** Splitting at the separator *)

Lemma split_nonempty s : exists w ws, split sep s = w :: ws.
Proof.
  induction s as [|x s (w & ws & IH)]; simpl; [by eexists _, _|].
  destruct (Ascii.eqb x sep); [by eexists _, _|]. rewrite IH. by eexists _, _.
Qed.

Lemma split_app_sep a b :
  split sep (a +:+ String sep b) = split sep a ++ split sep b.
Proof.
  induction a as [|x a IH]; simpl.
  - done.
  - destruct (Ascii.eqb x sep); [by rewrite IH|].
    rewrite IH. by destruct (split_nonempty a) as (w & ws & ->).
Qed.

Lemma split_has_sep s : Forall (fun c => has_sep c = false) (split sep s).
Proof.
  induction s as [|x s IH]; simpl; [by repeat constructor|].
  destruct (Ascii.eqb x sep) eqn:E; [by constructor|].
  destruct (split_nonempty s) as (w & ws & Hs). rewrite Hs in IH |- *.
  apply Forall_cons in IH as [Hw Hws]. constructor; [|done].
  simpl. by rewrite E, Hw.
Qed.

Lemma split_plain s : has_sep s = false -> split sep s = [s].
Proof.
  induction s as [|x s IH]; simpl; [done|].
  intros [E Hs]%orb_false_iff. by rewrite E, IH.
Qed.

Lemma concat_cons2 x y l :
  String.concat "/" (x :: y :: l)
  = x +:+ String sep (String.concat "/" (y :: l)).
Proof. reflexivity. Qed.

Lemma split_concat l :
  l <> [] ->
  Forall (fun c => has_sep c = false) l ->
  split sep (String.concat "/" l) = l.
Proof.
  induction l as [|x l IH]; [done|]. intros _ [Hx Hl]%Forall_cons.
  destruct l as [|y l].
  - simpl. by apply split_plain.
  - rewrite concat_cons2, split_app_sep, split_plain by done.
    by rewrite IH.
Qed.

(** *** Walking a list of components *)

Lemma collapse_step_empty kept : collapse_step kept "" = kept.
Proof. reflexivity. Qed.

Lemma collapse_step_up kept : collapse_step kept ".." = List.removelast kept.
Proof. reflexivity. Qed.

Lemma collapse_step_name kept comp :
  comp <> "" -> comp <> "." -> comp <> ".." ->
  collapse_step kept comp = kept ++ [comp].
Proof.
  intros H1 H2 H3. unfold collapse_step.
  apply String.eqb_neq in H1, H2, H3. by rewrite H1, H2, H3.
Qed.

Lemma walk_from_empties n kept :
  walk_from (List.repeat "" n) kept = kept.
Proof. induction n as [|n IH]; simpl; [done|]. exact IH. Qed.

Lemma collapse_step_plain kept comp :
  Forall plain_component kept ->
  has_sep comp = false ->
  Forall plain_component (collapse_step kept comp).
Proof.
  intros Hk Hc. unfold collapse_step.
  destruct (String.eqb_spec comp ""); [done|].
  destruct (String.eqb_spec comp "."); [done|]. simpl.
  destruct (String.eqb_spec comp "..").
  - by apply Forall_removelast.
  - apply Forall_app. split; [done|]. by repeat constructor.
Qed.

Lemma walk_from_plain comps kept :
  Forall plain_component kept ->
  Forall (fun c => has_sep c = false) comps ->
  Forall plain_component (walk_from comps kept).
Proof.
  revert kept. induction comps as [|c comps IH]; intros kept Hk Hc; [done|].
  apply Forall_cons in Hc as [Hc Hcs]. simpl. apply IH; [|done].
  by apply collapse_step_plain.
Qed.

(** Plain components are all kept. *)
Lemma walk_from_plain_id comps kept :
  Forall plain_component comps -> walk_from comps kept = kept ++ comps.
Proof.
  revert kept. induction comps as [|c comps IH]; intros kept Hc; simpl.
  - by rewrite app_nil_r.
  - apply Forall_cons in Hc as [(Hc1 & Hc2 & Hc3 & _) Hcs].
    rewrite IH by done. unfold collapse_step.
    apply String.eqb_neq in Hc1, Hc2, Hc3. rewrite Hc1, Hc2, Hc3. simpl.
    by rewrite <- app_assoc.
Qed.

(** *** Leading separators *)

Lemma prefix_cons c p x s :
  String.prefix (String c p) (String x s)
  = Ascii.eqb x c && String.prefix p s.
Proof.
  change (String.prefix (String c p) (String x s))
    with (if ascii_dec c x then String.prefix p s else false).
  destruct (ascii_dec c x) as [<-|Hx].
  - by rewrite Ascii.eqb_refl.
  - destruct (Ascii.eqb_spec x c) as [->|_]; [by destruct Hx | done].
Qed.

Lemma prefix_nil s : String.prefix "" s = true.
Proof. by destruct s. Qed.

Lemma isabs_cons x p : isabs (String x p) = Ascii.eqb x sep.
Proof.
  unfold isabs, startswith. rewrite prefix_cons, prefix_nil.
  apply andb_true_r.
Qed.

Lemma isabs_leading p : isabs p = negb (leading_seps p =? 0)%nat.
Proof.
  destruct p as [|x p]; [done|]. rewrite isabs_cons.
  cbn [leading_seps]. by destruct (Ascii.eqb x sep).
Qed.

Lemma root_of_leading p :
  root_of p = if (leading_seps p =? 2)%nat then "//" else "/".
Proof.
  unfold root_of, startswith.
  destruct p as [|x [|y [|z p]]]; cbn [leading_seps]; unfold sep;
    rewrite ?prefix_cons, ?prefix_nil; try done;
    repeat match goal with
    | |- context [Ascii.eqb ?c "/"] => destruct (Ascii.eqb c "/")
    end; done.
Qed.

Lemma has_sep_leading s : has_sep s = false -> leading_seps s = 0%nat.
Proof. destruct s as [|x s]; simpl; [done|]. by destruct (Ascii.eqb x sep). Qed.

(** The leading separators of [a +:+ b] are those of [a], and those of
    [b] as well when [a] holds nothing else. *)
Lemma leading_seps_app a b :
  leading_seps (a +:+ b)
  = if (leading_seps a =? String.length a)%nat
    then (leading_seps a + leading_seps b)%nat
    else leading_seps a.
Proof.
  induction a as [|x a IH]; simpl; [done|].
  destruct (Ascii.eqb x sep); [|done]. rewrite IH.
  change (S (leading_seps a) =? S (String.length a))%nat
    with (leading_seps a =? String.length a)%nat.
  by destruct (leading_seps a =? String.length a)%nat.
Qed.

Lemma leading_seps_app_relative a b :
  leading_seps b = 0%nat -> leading_seps (a +:+ b) = leading_seps a.
Proof.
  intros Hb. rewrite leading_seps_app, Hb.
  destruct (leading_seps a =? String.length a)%nat; lia.
Qed.

(** *** [normpath] on an absolute path *)

(** In an absolute path the loop of [normpath] does what
    [collapse_step] says: [..] at the root is dropped. *)
Lemma normpath_step_absolute n kept comp :
  n <> 0 ->
  Forall plain_component kept ->
  normpath_step n kept comp = collapse_step kept comp.
Proof.
  intros Hn Hk. unfold normpath_step, collapse_step.
  destruct (String.eqb comp "" || String.eqb comp "."); [done|].
  destruct (String.eqb_spec comp "..") as [->|]; [|done].
  apply Z.eqb_neq in Hn. rewrite Hn. cbn [negb orb andb].
  destruct (decide (kept = [])) as [->|Hne]; [done|].
  rewrite (bool_decide_eq_false_2 _ Hne). cbn [negb andb].
  destruct (String.eqb_spec (List.last kept "") "..") as [E|_]; [|done].
  apply (Forall_last _ _ "" Hne) in Hk.
  destruct Hk as (_ & _ & [] & _). exact E.
Qed.

Lemma normpath_loop_absolute n comps kept :
  n <> 0 ->
  Forall plain_component kept ->
  Forall (fun c => has_sep c = false) comps ->
  fold_left (normpath_step n) comps kept = walk_from comps kept.
Proof.
  intros Hn. revert kept.
  induction comps as [|c comps IH]; intros kept Hk Hc; [done|].
  apply Forall_cons in Hc as [Hc Hcs]. cbn [fold_left].
  rewrite normpath_step_absolute by done.
  apply IH; [|done]. by apply collapse_step_plain.
Qed.

Lemma normpath_absolute p :
  isabs p = true ->
  normpath p = root_of p +:+ String.concat "/" (collapse (split sep p)).
Proof.
  intros Habs. unfold normpath, root_of, collapse.
  destruct p as [|c p]; [done|].
  change (String.eqb (String c p) "") with false. cbv iota.
  unfold isabs in Habs. rewrite Habs.
  destruct (startswith (String c p) "//"
            && negb (startswith (String c p) "///")).
  - rewrite normpath_loop_absolute by (done || apply split_has_sep).
    reflexivity.
  - rewrite normpath_loop_absolute by (done || apply split_has_sep).
    reflexivity.
Qed.

(** A path made of a root and plain components reads back as them. *)
Lemma leading_seps_concat comps :
  Forall plain_component comps ->
  leading_seps (String.concat "/" comps) = 0%nat.
Proof.
  intros Hc. destruct Hc as [|c l (Hne & _ & _ & Hs) Hl]; [done|].
  assert (leading_seps c = 0%nat) as Hc0 by by apply has_sep_leading.
  destruct c as [|x c]; [done|].
  destruct l; simpl in *; by destruct (Ascii.eqb x sep).
Qed.

Lemma plain_has_sep comps :
  Forall plain_component comps -> Forall (fun c => has_sep c = false) comps.
Proof.
  intros Hc. eapply Forall_impl; [exact Hc|]. by intros c (_ & _ & _ & ?).
Qed.

Lemma split_rooted n comps kept :
  Forall plain_component comps ->
  walk_from (split sep (replicate_char sep (S n) +:+ String.concat "/" comps))
    kept
  = kept ++ comps.
Proof.
  intros Hc. induction n as [|n IH].
  - change (replicate_char sep 1 +:+ String.concat "/" comps)
      with ("" +:+ String sep (String.concat "/" comps)).
    rewrite split_app_sep. cbn [split app fold_left].
    rewrite collapse_step_empty.
    destruct comps as [|c l]; [by rewrite app_nil_r|].
    rewrite split_concat by (done || by apply plain_has_sep).
    by apply walk_from_plain_id.
  - change (replicate_char sep (S (S n)) +:+ String.concat "/" comps)
      with ("" +:+ String sep
              (replicate_char sep (S n) +:+ String.concat "/" comps)).
    rewrite split_app_sep. cbn [split app fold_left].
    by rewrite collapse_step_empty.
Qed.

Lemma leading_seps_rooted n comps :
  Forall plain_component comps ->
  leading_seps (replicate_char sep n +:+ String.concat "/" comps) = n.
Proof.
  intros Hc. induction n as [|n IH]; [by apply leading_seps_concat|].
  simpl. by rewrite IH.
Qed.

Lemma normpath_normalized p :
  isabs p = true ->
  root_of (normpath p) = root_of p /\
  collapse (split sep (normpath p)) = collapse (split sep p) /\
  isabs (normpath p) = true.
Proof.
  intros Habs. rewrite (normpath_absolute p Habs).
  assert (Forall plain_component (collapse (split sep p))) as Hp.
  { apply walk_from_plain; [done | apply split_has_sep]. }
  assert (exists n, root_of p = replicate_char sep (S n) /\
                    (S n =? 2)%nat = (leading_seps p =? 2)%nat)
    as (n & Hr & Hn).
  { rewrite root_of_leading. destruct (leading_seps p =? 2)%nat.
    - by exists 1%nat.
    - by exists 0%nat. }
  rewrite (root_of_leading (root_of p +:+ _)), isabs_leading.
  rewrite Hr at 1 3 4. rewrite !leading_seps_rooted by done.
  split; [|split].
  - by rewrite Hn, root_of_leading.
  - unfold collapse at 1. by rewrite split_rooted.
  - done.
Qed.

(** *** [normpath] on a relative path *)

(** What the loop of [normpath] keeps of a relative path: names, and
    [..] where there is nothing left to drop. *)
Local Abbreviation named :=
  (fun c : string => c <> "" /\ c <> "." /\ has_sep c = false).

(** In a relative path the loop keeps the [..] that it cannot resolve;
    read from any place, what it keeps leads where the components it
    was given lead. *)
Lemma normpath_step_relative kept comp st :
  Forall named kept ->
  has_sep comp = false ->
  Forall named (normpath_step 0 kept comp) /\
  walk_from (normpath_step 0 kept comp) st
  = collapse_step (walk_from kept st) comp.
Proof.
  intros Hk Hc. unfold normpath_step.
  destruct (String.eqb_spec comp "") as [->|Hne]; [done|].
  destruct (String.eqb_spec comp ".") as [->|Hdot]; [done|].
  cbn [orb].
  assert (Forall named (kept ++ [comp]) /\
          walk_from (kept ++ [comp]) st
          = collapse_step (walk_from kept st) comp) as Hpush.
  { split; [|by rewrite fold_left_app].
    apply Forall_app. split; [done|]. by repeat constructor. }
  destruct (String.eqb_spec comp "..") as [->|Hup]; [|exact Hpush].
  cbn [negb orb]. change (0 =? 0) with true. cbn [andb].
  destruct (decide (kept = [])) as [->|Hkne]; [exact Hpush|].
  rewrite (bool_decide_eq_false_2 _ Hkne). cbn [negb andb orb].
  destruct (String.eqb_spec (List.last kept "") "..") as [E|Hlast];
    [exact Hpush|].
  split; [by apply Forall_removelast|].
  pose proof (Forall_last _ _ "" Hkne Hk) as (Hl1 & Hl2 & _).
  rewrite (app_removelast_last "" Hkne) at 2.
  rewrite fold_left_app. cbn [fold_left].
  rewrite (collapse_step_name _ (List.last kept "")) by done.
  rewrite collapse_step_up. by rewrite removelast_snoc.
Qed.

Lemma normpath_loop_relative comps kept st :
  Forall named kept ->
  Forall (fun c => has_sep c = false) comps ->
  Forall named (fold_left (normpath_step 0) comps kept) /\
  walk_from (fold_left (normpath_step 0) comps kept) st
  = walk_from comps (walk_from kept st).
Proof.
  revert kept. induction comps as [|c comps IH]; intros kept Hk Hc; [done|].
  apply Forall_cons in Hc as [Hc Hcs]. cbn [fold_left].
  destruct (normpath_step_relative kept c st Hk Hc) as [Hk' <-].
  by apply IH.
Qed.

Lemma concat_named comps :
  Forall named comps ->
  leading_seps (String.concat "/" comps) = 0%nat /\
  (String.concat "/" comps = "" -> comps = []).
Proof.
  intros Hc. destruct Hc as [|c l (Hne & _ & Hs) Hl]; [done|].
  assert (leading_seps c = 0%nat) as Hc0 by by apply has_sep_leading.
  destruct c as [|x c]; [done|].
  destruct l; simpl in *; by destruct (Ascii.eqb x sep).
Qed.

Lemma named_has_sep comps :
  Forall named comps -> Forall (fun c => has_sep c = false) comps.
Proof.
  intros Hc. eapply Forall_impl; [exact Hc|]. by intros c (_ & _ & ?).
Qed.

Lemma normpath_relative p st :
  isabs p = false ->
  walk_from (split sep (normpath p)) st = walk_from (split sep p) st /\
  leading_seps (normpath p) = 0%nat.
Proof.
  intros Hrel. unfold normpath.
  destruct p as [|c p]; [done|].
  change (String.eqb (String c p) "") with false. cbv iota.
  unfold isabs in Hrel. rewrite Hrel. change (0 =? 0) with true. cbv iota.
  destruct (normpath_loop_relative (split sep (String c p)) [] st)
    as [Hn Hw]; [done | apply split_has_sep |].
  cbn [fold_left] in Hw. rewrite <- Hw.
  destruct (concat_named _ Hn) as [H0 Hnil].
  destruct (String.eqb_spec
              (String.concat "/"
                 (fold_left (normpath_step 0) (split sep (String c p)) []))
              "") as [E|E].
  - by rewrite (Hnil E).
  - split; [|done]. rewrite split_concat; [done| |by apply named_has_sep].
    intros Hnone. by rewrite Hnone in E.
Qed.

(** *** [join] *)

Lemma endswith_char_inv a c :
  endswith_char a c = true -> exists a', a = a' +:+ String c "".
Proof.
  induction a as [|x a IH]; [done|]. destruct a as [|y a].
  - intros ->%Ascii.eqb_eq. by exists "".
  - intros H. destruct (IH H) as [a' ->]. by exists (String x a').
Qed.

Lemma append_cons x a b : String x a +:+ b = String x (a +:+ b).
Proof. reflexivity. Qed.

Lemma append_snoc a c b : (a +:+ String c "") +:+ b = a +:+ String c b.
Proof.
  induction a as [|x a IH]; [done|]. by rewrite !append_cons, IH.
Qed.

Lemma all_seps_endswith a :
  leading_seps a = String.length a ->
  a = "" \/ endswith_char a sep = true.
Proof.
  induction a as [|x a IH]; [by left|]. cbn [leading_seps String.length].
  destruct (Ascii.eqb x sep) eqn:E; [|done]. intros [= H]. right.
  destruct (IH H) as [->|Ha]; [exact E|]. by destruct a.
Qed.

Lemma join_walk a b st :
  isabs b = false ->
  walk_from (split sep (join a b)) st
  = walk_from (split sep b) (walk_from (split sep a) st).
Proof.
  intros Hb. unfold join. unfold isabs in Hb. rewrite Hb.
  destruct (String.eqb_spec a "") as [->|Ha]; [done|]. cbn [orb].
  destruct (endswith_char a sep) eqn:E.
  - destruct (endswith_char_inv _ _ E) as [a' ->].
    rewrite append_snoc, !split_app_sep, !fold_left_app. done.
  - change ("/" +:+ b) with (String sep b).
    by rewrite split_app_sep, fold_left_app.
Qed.

Lemma join_leading a b :
  isabs b = false -> leading_seps (join a b) = leading_seps a.
Proof.
  intros Hb. pose proof Hb as Hb0. rewrite isabs_leading in Hb0.
  apply negb_false_iff, Nat.eqb_eq in Hb0.
  unfold join. unfold isabs in Hb. rewrite Hb.
  destruct (String.eqb_spec a "") as [->|Ha]; [done|]. cbn [orb].
  destruct (endswith_char a sep) eqn:E.
  - by apply leading_seps_app_relative.
  - rewrite leading_seps_app.
    destruct (Nat.eqb_spec (leading_seps a) (String.length a)) as [H|]; [|done].
    destruct (all_seps_endswith a H) as [?|E']; [done|]. by rewrite E in E'.
Qed.

(** *** [dirname] *)

Lemma rfind_from_last_sep s i last :
  rfind_from sep s i last
  = match last_sep s with Some k => i + Z.of_nat k | None => last end.
Proof.
  revert i last. induction s as [|x s IH]; intros i last; [done|].
  cbn [rfind_from last_sep]. rewrite IH.
  destruct (last_sep s); [lia|]. destruct (Ascii.eqb x sep); lia.
Qed.

Lemma last_sep_None s : last_sep s = None -> has_sep s = false.
Proof.
  induction s as [|x s IH]; [done|]. cbn [last_sep has_sep].
  destruct (last_sep s); [done|]. destruct (Ascii.eqb x sep); [done|].
  intros _. by apply IH.
Qed.

Lemma last_sep_Some s k :
  last_sep s = Some k ->
  exists a b,
    s = a +:+ String sep b /\ has_sep b = false /\ String.length a = k.
Proof.
  revert k. induction s as [|x s IH]; intros k; [done|]. cbn [last_sep].
  destruct (last_sep s) as [k1|] eqn:E.
  - intros [= <-]. destruct (IH k1 eq_refl) as (a & b & -> & Hb & Ha).
    exists (String x a), b. repeat split; [done|]. simpl. by rewrite Ha.
  - destruct (Ascii.eqb_spec x sep) as [->|]; [|done]. intros [= <-].
    exists "", s. repeat split. by apply last_sep_None.
Qed.

Lemma substring_head a b :
  String.substring 0 (S (String.length a)) (a +:+ String sep b)
  = a +:+ String sep "".
Proof.
  induction a as [|x a IH]; simpl.
  - by destruct b.
  - by rewrite IH.
Qed.

Lemma substring_none s : String.substring 0 0 s = "".
Proof. by destruct s. Qed.

Lemma append_empty s : s +:+ "" = s.
Proof. induction s as [|x s IH]; [done|]. by rewrite append_cons, IH. Qed.

Lemma length_replicate_char c n : String.length (replicate_char c n) = n.
Proof. induction n as [|n IH]; simpl; [done | by rewrite IH]. Qed.

Lemma rstrip_replicate h :
  exists n, h = rstrip sep h +:+ replicate_char sep n.
Proof.
  induction h as [|x h [n IH]]; [by exists 0%nat|]. cbn [rstrip].
  destruct (rstrip sep h) as [|y t].
  - destruct (Ascii.eqb_spec x sep) as [->|].
    + exists (S n). simpl in *. by rewrite IH at 1.
    + exists n. simpl in *. by rewrite IH at 1.
  - exists n. simpl in *. by rewrite IH at 1.
Qed.

Lemma rstrip_not_endswith h : endswith_char (rstrip sep h) sep = false.
Proof.
  induction h as [|x h IH]; [done|]. cbn [rstrip].
  destruct (rstrip sep h) as [|y t].
  - destruct (Ascii.eqb x sep) eqn:E; [done|]. exact E.
  - exact IH.
Qed.

Lemma split_replicate n :
  split sep (replicate_char sep n) = List.repeat "" (S n).
Proof. induction n as [|n IH]; [done|]. simpl in *. by rewrite IH. Qed.

Lemma walk_from_trailing r n st :
  walk_from (split sep (r +:+ replicate_char sep n)) st
  = walk_from (split sep r) st.
Proof.
  destruct n as [|n]; [by rewrite append_empty|].
  change (replicate_char sep (S n)) with (String sep (replicate_char sep n)).
  rewrite split_app_sep, fold_left_app, split_replicate.
  apply walk_from_empties.
Qed.

Lemma rstrip_walk h st :
  walk_from (split sep (rstrip sep h)) st = walk_from (split sep h) st.
Proof.
  destruct (rstrip_replicate h) as [n Hn]. rewrite Hn at 2.
  by rewrite walk_from_trailing.
Qed.

Lemma rstrip_leading h :
  h <> replicate_char sep (String.length h) ->
  leading_seps (rstrip sep h) = leading_seps h.
Proof.
  intros Hh. destruct (rstrip_replicate h) as [n Hn]. rewrite Hn at 2.
  rewrite leading_seps_app.
  destruct (Nat.eqb_spec (leading_seps (rstrip sep h))
              (String.length (rstrip sep h))) as [H|]; [|done].
  destruct (all_seps_endswith _ H) as [E|E].
  - rewrite E in Hn. change (h = replicate_char sep n) in Hn. destruct Hh.
    rewrite Hn at 2. by rewrite length_replicate_char.
  - by rewrite rstrip_not_endswith in E.
Qed.

(** The part of a path up to its last separator, and the rest. *)
Lemma dirname_cases p :
  (has_sep p = false /\ dirname p = "") \/
  (exists a b,
     p = a +:+ String sep b /\ has_sep b = false /\
     (dirname p = a +:+ String sep "" \/
      (dirname p = rstrip sep (a +:+ String sep "") /\
       a +:+ String sep ""
       <> replicate_char sep (String.length (a +:+ String sep ""))))).
Proof.
  unfold dirname, rfind. rewrite rfind_from_last_sep.
  destruct (last_sep p) as [k|] eqn:E.
  - right. destruct (last_sep_Some p k E) as (a & b & -> & Hb & <-).
    exists a, b. split; [done|]. split; [done|].
    replace (Z.to_nat (0 + Z.of_nat (String.length a) + 1))
      with (S (String.length a)) by lia.
    rewrite substring_head.
    destruct (negb _ && negb (String.eqb (a +:+ String sep "") _)) eqn:C;
      [right | by left].
    split; [done|]. apply andb_true_iff in C as [_ C].
    by apply negb_true_iff, String.eqb_neq in C.
  - left. split; [by apply last_sep_None|].
    change (Z.to_nat (-1 + 1)) with 0%nat. by rewrite substring_none.
Qed.

Lemma dirname_walk p st :
  walk_from (split sep (dirname p)) st
  = walk_from (List.removelast (split sep p)) st.
Proof.
  destruct (dirname_cases p) as [[Hp ->] | (a & b & -> & Hb & Hd)].
  - by rewrite (split_plain p Hp).
  - rewrite split_app_sep, (split_plain b Hb), removelast_snoc.
    assert (walk_from (split sep (a +:+ String sep "")) st
            = walk_from (split sep a) st) as Hhead.
    { by rewrite split_app_sep, fold_left_app. }
    destruct Hd as [-> | [-> _]]; [done|]. by rewrite rstrip_walk.
Qed.

Lemma dirname_leading p : leading_seps (dirname p) = leading_seps p.
Proof.
  destruct (dirname_cases p) as [[Hp ->] | (a & b & -> & Hb & Hd)].
  - by rewrite (has_sep_leading p Hp).
  - assert (leading_seps (a +:+ String sep "")
            = leading_seps (a +:+ String sep b)) as Hhead.
    { rewrite !leading_seps_app. cbn [leading_seps].
      by rewrite (has_sep_leading b Hb). }
    destruct Hd as [-> | [-> Hne]]; [done|]. by rewrite rstrip_leading.
Qed.

(** *** The directory of the ledger and a relative directory *)

Lemma isabs_same_leading a b :
  leading_seps a = leading_seps b -> isabs a = isabs b.
Proof. intros H. by rewrite !isabs_leading, H. Qed.

Lemma root_of_same_leading a b :
  leading_seps a = leading_seps b -> root_of a = root_of b.
Proof. intros H. by rewrite !root_of_leading, H. Qed.

Lemma abspath_beside cwd input directory :
  isabs cwd = true ->
  isabs directory = false ->
  abspath cwd (normpath (join (dirname input) directory))
  = root_of (if isabs input then input else cwd)
    +:+ String.concat "/"
          (collapse (containing_directory cwd input ++ split sep directory)).
Proof.
  intros Hcwd Hdir.
  assert (leading_seps (join (dirname input) directory) = leading_seps input)
    as Hlead by by rewrite join_leading, dirname_leading.
  pose proof (isabs_same_leading _ _ Hlead) as Habs.
  pose proof (root_of_same_leading _ _ Hlead) as Hroot.
  unfold abspath, containing_directory, collapse.
  destruct (isabs input) eqn:Hi.
  - destruct (normpath_normalized _ Habs) as (Hr & Hc & Ha).
    rewrite Ha. cbn [negb]. rewrite (normpath_absolute _ Ha), Hr, Hc, Hroot.
    unfold collapse.
    by rewrite join_walk, dirname_walk, <- fold_left_app by done.
  - destruct (normpath_relative _ (walk_from (split sep cwd) []) Habs)
      as [Hw H0].
    assert (isabs (normpath (join (dirname input) directory)) = false) as Hn.
    { by rewrite isabs_leading, H0. }
    rewrite Hn. cbn [negb].
    pose proof (join_leading cwd _ Hn) as Hl.
    rewrite normpath_absolute
      by by rewrite (isabs_same_leading _ _ Hl).
    rewrite (root_of_same_leading _ _ Hl). unfold collapse.
    rewrite join_walk, Hw, join_walk, dirname_walk by done.
    by rewrite <- !fold_left_app, <- app_assoc.
Qed.

Lemma containing_directory_has_sep cwd p :
  Forall (fun c => has_sep c = false) (containing_directory cwd p).
Proof.
  unfold containing_directory. apply Forall_app. split.
  - destruct (isabs p); [constructor | apply split_has_sep].
  - apply Forall_removelast, split_has_sep.
Qed.

Lemma collapse_plain comps :
  Forall (fun c => has_sep c = false) comps ->
  Forall plain_component (collapse comps).
Proof. intros H. by apply walk_from_plain. Qed.

End PosixPathFacts.

Section Resolution.
Context {db : UnicodeDB}.


End Resolution.


(** ** The path functions on sample paths *)

Example normpath_dots : PosixPath.normpath "/a/./b/../c//d/" = "/a/c/d".
Proof. reflexivity. Qed.

Example normpath_keeps_leading_dots :
  PosixPath.normpath "../a/../../b" = "../../b".
Proof. reflexivity. Qed.

Example normpath_two_slashes : PosixPath.normpath "//a/.." = "//".
Proof. reflexivity. Qed.

Example normpath_three_slashes : PosixPath.normpath "///a/../.." = "/".
Proof. reflexivity. Qed.

Example dirname_file : PosixPath.dirname "/home/u/ledger.beancount" = "/home/u".
Proof. reflexivity. Qed.

Example dirname_bare : PosixPath.dirname "ledger.beancount" = "".
Proof. reflexivity. Qed.

Example dirname_slashes : PosixPath.dirname "/a//b" = "/a".
Proof. reflexivity. Qed.

Example dirname_root : PosixPath.dirname "//ledger.beancount" = "//".
Proof. reflexivity. Qed.

Example join_plain : PosixPath.join "/home/u" "docs" = "/home/u/docs".
Proof. reflexivity. Qed.

Example join_empty : PosixPath.join "" "docs" = "docs".
Proof. reflexivity. Qed.

Example abspath_parent : PosixPath.abspath "/w" "../docs" = "/docs".
Proof. reflexivity. Qed.

Example split_slashes :
  PosixPath.split PosixPath.sep "/a//b/" = [""; "a"; ""; "b"; ""].
Proof. reflexivity. Qed.

Example containing_directory_relative :
  Components.containing_directory "/srv/run" "books/2014/ledger.beancount"
  = [""; "srv"; "run"; "books"; "2014"].
Proof. reflexivity. Qed.

Example collapse_sample :
  Components.collapse [""; "srv"; "run"; "books"; "2014"; ".."; "docs"; "."]
  = ["srv"; "run"; "books"; "docs"].
Proof. reflexivity. Qed.

(** A ledger named without a directory: the directory is read from the
    working directory. *)
Example resolve_directory_bare_ledger :
  resolve_directory Samples.fs_elsewhere "docs/../papers" "ledger.beancount"
  = "/srv/run/papers".
Proof. reflexivity. Qed.

(** More [..] than there are components: the root is its own parent. *)
Example resolve_directory_above_root :
  resolve_directory Samples.fs_elsewhere "../../../docs" "/l/ledger.beancount"
  = "/docs".
Proof. reflexivity. Qed.

(** An absolute directory is not normalized. *)
Example resolve_directory_absolute :
  resolve_directory Samples.fs_elsewhere "/home/u/../u/docs/"
    "/home/u/books/ledger.beancount"
  = "/home/u/../u/docs/".
Proof. reflexivity. Qed.

(** A ledger under a root of two slashes: the root is kept. *)
Example resolve_directory_two_slashes :
  resolve_directory Samples.fs_elsewhere "../docs"
    "//share/books/ledger.beancount"
  = "//share/docs".
Proof. reflexivity. Qed.
